(** * Exsel-Frontend: the detection-to-record pipeline

  A shallow embedding of the TypeScript sources of the traffic-violation
  front end: the OpenCV region filter, the dimension estimator and the
  vehicle classifier ([utils/vehicleDetection.ts]), the plate extractor and
  the automatic challan path ([utils/numberPlateDetection.ts]), the challan
  store operations and the fine lookup ([utils/challanUtils.ts]), the payment
  page ([pages/user/ChallanPayment.tsx]) and the statistics aggregator
  ([pages/admin/AdminDashboard.tsx]).

  A JavaScript [number] is an IEEE 754 binary64 value and is modelled by
  Rocq's primitive [float], whose operations are the same binary64
  operations (round to nearest, ties to even); a decimal literal such as
  [1.3] denotes the nearest binary64 value in both languages.  Counters that
  only ever hold small integers are modelled by [Z]. *)

From Stdlib Require Import ZArith NArith Ascii Floats Lia.
From stdpp Require Import gmap strings list fin_maps sorting.

#[local] Set Warnings "-inexact-float".
#[local] Open Scope float_scope.

(** ** JavaScript values *)

Module Js.

(** [a > b] on numbers: false as soon as one side is NaN. *)
Definition gt (a b : float) : bool := b <? a.

(** A number is falsy when it is [0], [-0] or [NaN]. *)
Definition falsy (v : float) : bool := is_zero v || is_nan v.

(** [o || dflt] where [o] is the result of a property read: [None] is
    [undefined]. *)
Definition or_else (o : option float) (dflt : float) : float :=
  match o with
  | Some v => if falsy v then dflt else v
  | None => dflt
  end.

(** A string as its sequence of UTF-16 code units. *)
Definition text := list N.

Definition code (a : ascii) : N := N_of_ascii a.

Fixpoint codes (s : string) : text :=
  match s with
  | EmptyString => []
  | String a r => code a :: codes r
  end.

End Js.

(** ** Binary64 values by sign, mantissa and exponent *)

Module Binary64.

(** The number two. *)
Definition Two : spec_float := S754_finite false 4503599627370496 (-51).

(** Doubling: the exponent goes up by one, and past the largest exponent the
    value is infinite. *)
Definition dbl (v : spec_float) : spec_float :=
  match v with
  | S754_finite s m e =>
      if (e + 1 <=? emax - prec)%Z then S754_finite s m (e + 1) else S754_infinity s
  | _ => v
  end.

(** A finite number whose magnitude lies between [2^-256] and [2^256]. *)
Definition moderate (v : float) : bool :=
  (0x1p-256 <=? abs v) && (abs v <=? 0x1p256).

End Binary64.

(** ** [utils/vehicleDetection.ts] *)

Module VehicleDetection.

(** What [cv.boundingRect] returns. *)
Record Rect := mkRect {
  rect_x : float; rect_y : float; rect_width : float; rect_height : float }.

(** One contour of [cv.findContours], seen through the two calls the loop
    makes on it: [cv.contourArea] and [cv.boundingRect]. *)
Record Contour := mkContour { contourArea : float; boundingRect : Rect }.

(** An element of the [vehicles] array. *)
Record Region := mkRegion {
  x : float; y : float; width : float; height : float; area : float }.

Record BoundingBox := mkBoundingBox { box_width : float; box_height : float }.

Record CameraParams := mkCameraParams {
  focalLength : float; sensorWidth : float; distance : float }.

Record Dimensions := mkDimensions {
  dim_width : float; dim_height : float; dim_length : float }.

Definition regionOf (c : Contour) : Region :=
  let rect := boundingRect c in
  {| x := rect_x rect; y := rect_y rect;
     width := rect_width rect; height := rect_height rect;
     area := contourArea c |}.

(** The body of the [for] loop of [detectVehicles]: [vehicles.push] appends. *)
Definition detectStep (vehicles : list Region) (contour : Contour) : list Region :=
  let area := contourArea contour in
  if Js.gt area 1000 then
    let rect := boundingRect contour in
    let aspectRatio := rect_width rect / rect_height rect in
    if Js.gt aspectRatio 0.5 && (aspectRatio <? 2.5)
    then vehicles ++ [regionOf contour]
    else vehicles
  else vehicles.

(** [detectVehicles], after the contour extraction it delegates to OpenCV. *)
Definition detectVehicles (contours : list Contour) : list Region :=
  fold_left detectStep contours [].

Definition calculateVehicleDimensions
    (boundingBox : BoundingBox) (cameraParams : CameraParams) : Dimensions :=
  let realWidth :=
    (box_width boundingBox * distance cameraParams) / focalLength cameraParams in
  let realHeight :=
    (box_height boundingBox * distance cameraParams) / focalLength cameraParams in
  let estimatedLength := realWidth * 2.5 in
  {| dim_width := realWidth; dim_height := realHeight; dim_length := estimatedLength |}.

Definition classifyVehicleType (dimensions : Dimensions) : string :=
  let width := dim_width dimensions in
  let height := dim_height dimensions in
  let length := dim_length dimensions in
  if (width <? 1.3) && (length <? 2.5) then "Motorcycle"
  else if (width <? 2.0) && (height <? 1.8) && (length <? 5.0) then "Car"
  else if (width <? 2.3) && (height <? 2.5) && (length <? 6.0) then "Van"
  else if (width <? 2.6) && (height <? 3.5) && (length <? 12.0) then "Bus"
  else "Truck".

(** *** The classifier as the specification words it *)

(** An ordered rule: a guard and the tag it yields. *)
Definition Rule : Type := (Dimensions -> bool) * string.

Definition orderedRules : list Rule :=
  [ (fun d => (dim_width d <? 1.3) && (dim_length d <? 2.5), "Motorcycle");
    (fun d => (dim_width d <? 2.0) && (dim_height d <? 1.8) && (dim_length d <? 5.0), "Car");
    (fun d => (dim_width d <? 2.3) && (dim_height d <? 2.5) && (dim_length d <? 6.0), "Van");
    (fun d => (dim_width d <? 2.6) && (dim_height d <? 3.5) && (dim_length d <? 12.0), "Bus") ].

(** First match wins; [fallback] when no rule fires. *)
Fixpoint firstMatch (rules : list Rule) (fallback : string) (d : Dimensions) : string :=
  match rules with
  | [] => fallback
  | (guard, tag) :: rest => if guard d then tag else firstMatch rest fallback d
  end.

Definition vehicleTags : list string :=
  ["Motorcycle"; "Car"; "Van"; "Bus"; "Truck"].

(** *** The region gate as a predicate on one contour *)

Definition aspectRatioOf (c : Contour) : float :=
  rect_width (boundingRect c) / rect_height (boundingRect c).

(** The gate with both aspect-ratio bounds excluded. *)
Definition openGate (c : Contour) : bool :=
  (1000 <? contourArea c) && (0.5 <? aspectRatioOf c) && (aspectRatioOf c <? 2.5).

(** The gate with both aspect-ratio bounds included. *)
Definition closedGate (c : Contour) : bool :=
  (1000 <? contourArea c) && (0.5 <=? aspectRatioOf c) && (aspectRatioOf c <=? 2.5).

(** Doubling the pixel width of a bounding box. *)
Definition doubleWidth (b : BoundingBox) : BoundingBox :=
  {| box_width := 2 * box_width b; box_height := box_height b |}.

End VehicleDetection.

(** ** The record store

  The [challans] collection of Cloud Firestore, seen through the three calls
  the sources make: [addDoc], [updateDoc] and a query snapshot.  A rejected
  promise is an [Err] outcome. *)

Module Firestore.

Inductive Status := pending | paid.

Inductive PaymentMethod := card | wallet.

(** A server timestamp, in milliseconds. *)
Definition Timestamp : Type := Z.
Bind Scope Z_scope with Timestamp.

(** A document of the collection: the fields of the [Challan] interface
    without [id], then the [dimensions] the detection path stores.  A field a
    writer leaves out is [None]. *)
Record Doc := mkDoc {
  vehicleNumber : Js.text;
  location : string;
  timestamp : Timestamp;
  amount : float;
  status : Status;
  vehicleType : string;
  violationType : string;
  userId : option string;
  paidAt : option Timestamp;
  paymentMethod : option PaymentMethod;
  dimensions : option VehicleDetection.Dimensions }.

(** The collection and whether the back end can be reached. *)
Record Store := mkStore { challans : gmap string Doc; online : bool }.

Inductive Error := NotFound | Unavailable.

Inductive Outcome (A : Type) :=
| Ok (a : A)
| Err (e : Error).
Arguments Ok {A} a.
Arguments Err {A} e.

Definition emptyStore : Store := {| challans := ∅; online := true |}.

Definition withChallans (st : Store) (m : gmap string Doc) : Store :=
  {| challans := m; online := online st |}.

(** [addDoc(collection(firestore, 'challans'), data)]: the document gets an
    identifier no document of the collection has. *)
Definition addDoc (data : Doc) (st : Store) : Outcome string * Store :=
  if online st then
    let id := fresh (dom (challans st)) in
    (Ok id, withChallans st (<[id := data]> (challans st)))
  else (Err Unavailable, st).

(** [updateDoc(doc(firestore, 'challans', id), fields)]: the write is
    rejected when the document does not exist; [fields] overwrites the
    fields it names and keeps the others. *)
Definition updateDoc (id : string) (fields : Doc -> Doc) (st : Store)
    : Outcome unit * Store :=
  if online st then
    match challans st !! id with
    | Some d => (Ok tt, withChallans st (<[id := fields d]> (challans st)))
    | None => (Err NotFound, st)
    end
  else (Err Unavailable, st).

(** The documents a query snapshot of the whole collection iterates over. *)
Definition snapshot (st : Store) : list Doc :=
  (map_to_list (challans st)).*2.

Definition isPaid (d : Doc) : bool :=
  match status d with paid => true | pending => false end.

End Firestore.

(** ** [utils/challanUtils.ts] *)

Module ChallanUtils.
Import Firestore.

(** An entry of [challanData.violationTypes]. *)
Record ViolationInfo := mkViolationInfo {
  violation_amount : float; violation_description : string }.

(** An entry of [challanData.vehicleTypes]. *)
Record VehicleInfo := mkVehicleInfo {
  baseAmount : float; vehicle_description : string }.

(** [{ ...challanData, timestamp: serverTimestamp() }] *)
Definition stamped (challanData : Doc) (now : Timestamp) : Doc :=
  {| vehicleNumber := vehicleNumber challanData;
     location := location challanData;
     timestamp := now;
     amount := amount challanData;
     status := status challanData;
     vehicleType := vehicleType challanData;
     violationType := violationType challanData;
     userId := userId challanData;
     paidAt := paidAt challanData;
     paymentMethod := paymentMethod challanData;
     dimensions := dimensions challanData |}.

(** The [catch] block logs and rethrows, so the outcome is [addDoc]'s. *)
Definition createChallan (challanData : Doc) (now : Timestamp) (st : Store)
    : Outcome string * Store :=
  addDoc (stamped challanData now) st.

(** [{ status: 'paid', paidAt: serverTimestamp() }] *)
Definition paidFields (now : Timestamp) (d : Doc) : Doc :=
  {| vehicleNumber := vehicleNumber d;
     location := location d;
     timestamp := timestamp d;
     amount := amount d;
     status := paid;
     vehicleType := vehicleType d;
     violationType := violationType d;
     userId := userId d;
     paidAt := Some now;
     paymentMethod := paymentMethod d;
     dimensions := dimensions d |}.

(** The [catch] block logs and rethrows, so the outcome is [updateDoc]'s. *)
Definition payChallan (challanId : string) (now : Timestamp) (st : Store)
    : Outcome unit * Store :=
  updateDoc challanId (paidFields now) st.

(** The two lookup tables of [data/challanData.json], a file the sources
    import and do not contain: they are parameters here. *)
Section Lookup.
Variable violationTypes : gmap string ViolationInfo.
Variable vehicleTypes : gmap string VehicleInfo.

(** Reading [.amount] of a missing entry throws: [None]. *)
Definition getChallanAmount (violationType vehicleType : string) : option float :=
  match violationTypes !! violationType, vehicleTypes !! vehicleType with
  | Some violation, Some vehicle =>
      let violationAmount := violation_amount violation in
      let vehicleBaseAmount := baseAmount vehicle in
      Some (violationAmount + vehicleBaseAmount)
  | _, _ => None
  end.

(** The amounts a sequence of calls returns, in call order. *)
Definition callSequence (calls : list (string * string)) : list (option float) :=
  map (fun call => getChallanAmount call.1 call.2) calls.
End Lookup.

End ChallanUtils.

(** ** [pages/user/ChallanPayment.tsx] *)

Module ChallanPayment.
Import Firestore.

(** What the page shows once [handlePayment] has run. *)
Inductive View :=
| Unchanged
| ShowSuccess
| ShowError (message : string).

(** [{ status: 'paid', paidAt: serverTimestamp(), paymentMethod }] *)
Definition paymentFields (method : PaymentMethod) (now : Timestamp) (d : Doc) : Doc :=
  {| vehicleNumber := vehicleNumber d;
     location := location d;
     timestamp := timestamp d;
     amount := amount d;
     status := paid;
     vehicleType := vehicleType d;
     violationType := violationType d;
     userId := userId d;
     paidAt := Some now;
     paymentMethod := Some method;
     dimensions := dimensions d |}.

(** [challan] and [paymentMethod] are the component's state, [challanId] the
    route parameter. *)
Definition handlePayment (challan : option Doc) (paymentMethod : option PaymentMethod)
    (challanId : string) (now : Timestamp) (st : Store) : View * Store :=
  match challan, paymentMethod with
  | Some _, Some method =>
      match updateDoc challanId (paymentFields method now) st with
      | (Ok _, st') => (ShowSuccess, st')
      | (Err _, _) => (ShowError "Failed to process payment", st)
      end
  | _, _ => (Unchanged, st)
  end.

End ChallanPayment.

(** ** [utils/numberPlateDetection.ts] *)

Module NumberPlateDetection.
Import Firestore VehicleDetection.

(** *** The regular expression

    [/[A-Z]{2}\s*\d{2}\s*[A-Z]{2}\s*\d{4}/g] only needs two kinds of atoms:
    one character of a class, and a greedy star over a class. *)

Inductive Atom :=
| Class (p : N -> bool)
| StarClass (p : N -> bool).

(** [[A-Z]] *)
Definition upper (c : N) : bool := ((65 <=? c) && (c <=? 90))%N.

(** [\d] *)
Definition digit (c : N) : bool := ((48 <=? c) && (c <=? 57))%N.

(** [\s]: the WhiteSpace and LineTerminator code points of ECMAScript. *)
Definition space (c : N) : bool :=
  (((9 <=? c) && (c <=? 13)) || (c =? 32) || (c =? 160) || (c =? 5760)
   || ((8192 <=? c) && (c <=? 8202)) || (c =? 8232) || (c =? 8233)
   || (c =? 8239) || (c =? 8287) || (c =? 12288) || (c =? 65279))%N.

Definition numberPlateRegex : list Atom :=
  [ Class upper; Class upper; StarClass space;
    Class digit; Class digit; StarClass space;
    Class upper; Class upper; StarClass space;
    Class digit; Class digit; Class digit; Class digit ].

(** Matching at the start of [s], as a backtracking engine does it: a star
    first takes as many characters as it can and gives them back one by one
    while the rest of the pattern fails.  The result is the matched text. *)
Fixpoint matchHere (re : list Atom) : Js.text -> option Js.text :=
  match re with
  | [] => fun _ => Some []
  | Class p :: rest => fun s =>
      match s with
      | c :: s' => if p c then cons c <$> matchHere rest s' else None
      | [] => None
      end
  | StarClass p :: rest =>
      fix star (s : Js.text) : option Js.text :=
        match s with
        | c :: s' =>
            if p c then
              match star s' with
              | Some m => Some (c :: m)
              | None => matchHere rest s
              end
            else matchHere rest s
        | [] => matchHere rest []
        end
  end.

(** The matches of a global regular expression, left to right: after a
    match the search resumes behind it ([skip] characters are still to be
    passed over), after a failure one character further. *)
Fixpoint scan (re : list Atom) (skip : nat) (s : Js.text) {struct s} : list Js.text :=
  match skip with
  | S k => match s with _ :: s' => scan re k s' | [] => [] end
  | O =>
      match matchHere re s with
      | Some m =>
          m :: match s with _ :: s' => scan re (Nat.pred (length m)) s' | [] => [] end
      | None => match s with _ :: s' => scan re 0 s' | [] => [] end
      end
  end.

(** [text.match(re)] for a regular expression with the [g] flag: [null]
    when nothing matches, the array of all matches otherwise. *)
Definition stringMatch (re : list Atom) (s : Js.text) : option (list Js.text) :=
  match scan re 0 s with
  | [] => None
  | matches => Some matches
  end.

(** *** The plate format as the specification words it *)

Definition plateShape (p : Js.text) : Prop :=
  ∃ l1 w1 d1 w2 l2 w3 d2 : Js.text,
    p = l1 ++ w1 ++ d1 ++ w2 ++ l2 ++ w3 ++ d2
    ∧ length l1 = 2%nat ∧ Forall (λ c, upper c = true) l1
    ∧ Forall (λ c, space c = true) w1
    ∧ length d1 = 2%nat ∧ Forall (λ c, digit c = true) d1
    ∧ Forall (λ c, space c = true) w2
    ∧ length l2 = 2%nat ∧ Forall (λ c, upper c = true) l2
    ∧ Forall (λ c, space c = true) w3
    ∧ length d2 = 4%nat ∧ Forall (λ c, digit c = true) d2.

(** The language of a pattern: the texts it matches in full. *)
Inductive accepts : list Atom -> Js.text -> Prop :=
| accepts_nil : accepts [] []
| accepts_class p rest c m :
    p c = true -> accepts rest m -> accepts (Class p :: rest) (c :: m)
| accepts_star_stop p rest m :
    accepts rest m -> accepts (StarClass p :: rest) m
| accepts_star_more p rest c m :
    p c = true -> accepts (StarClass p :: rest) m ->
    accepts (StarClass p :: rest) (c :: m).

(** The first offset, from the left, at which the pattern matches. *)
Fixpoint search (re : list Atom) (s : Js.text) : option Js.text :=
  match matchHere re s with
  | Some m => Some m
  | None => match s with _ :: s' => search re s' | [] => None end
  end.

(** [p] occurs in [s] at offset [i]. *)
Definition occursAt (p s : Js.text) (i : nat) : Prop :=
  ∃ rest, drop i s = p ++ rest.

(** *** The detection path *)

Record ImageData := mkImageData {
  img_width : float; img_height : float; img_data : list N }.

(** What [processVehicleFrame] resolves to when it creates a challan. *)
Record FrameResult := mkFrameResult {
  res_id : string;
  res_vehicleNumber : Js.text;
  res_vehicleType : string;
  res_dimensions : Dimensions;
  res_fineAmount : float }.

Definition baseFines : gmap string float :=
  list_to_map [ ("Motorcycle", 500); ("Car", 1000); ("Van", 1500);
                ("Bus", 2000); ("Truck", 2500) ].

Definition calculateFine (vehicleType : string) : float :=
  Js.or_else (baseFines !! vehicleType) 1000.

(** The challan [processVehicleFrame] hands to [addDoc]. *)
Definition detectedChallan (numberPlate : Js.text) (vehicleType location : string)
    (now : Timestamp) (fineAmount : float) (dimensions : Dimensions) : Doc :=
  {| vehicleNumber := numberPlate;
     vehicleType := vehicleType;
     location := location;
     timestamp := now;
     amount := fineAmount;
     status := pending;
     violationType := "No-Entry Zone Violation";
     dimensions := Some dimensions;
     userId := None; paidAt := None; paymentMethod := None |}.

Section Ocr.
(** The Tesseract worker: the text it recognises in an image, [None] when
    creating the worker or recognising throws. *)
Variable recognize : ImageData -> option Js.text.

Definition detectNumberPlate (imageData : ImageData) : option Js.text :=
  match recognize imageData with
  | Some text =>
      match stringMatch numberPlateRegex text with
      | Some matches => head matches
      | None => None
      end
  | None => None
  end.

Definition processVehicleFrame (imageData : ImageData) (location : string)
    (cameraParams : CameraParams) (now : Timestamp) (st : Store)
    : option FrameResult * Store :=
  match detectNumberPlate imageData with
  | None | Some [] => (None, st)
  | Some numberPlate =>
      let boundingBox :=
        {| box_width := img_width imageData; box_height := img_height imageData |} in
      let dimensions := calculateVehicleDimensions boundingBox cameraParams in
      let vehicleType := classifyVehicleType dimensions in
      let fineAmount := calculateFine vehicleType in
      match addDoc (detectedChallan numberPlate vehicleType location now
                      fineAmount dimensions) st with
      | (Ok id, st') =>
          (Some {| res_id := id; res_vehicleNumber := numberPlate;
                   res_vehicleType := vehicleType; res_dimensions := dimensions;
                   res_fineAmount := fineAmount |}, st')
      | (Err _, _) => (None, st)
      end
  end.
End Ocr.

End NumberPlateDetection.

(** ** [pages/admin/AdminDashboard.tsx] *)

Module AdminDashboard.
Import Firestore.

(** A per-type counter: incrementing a key the table does not have stores
    [NaN] under it. *)
Inductive Count :=
| Num (n : Z)
| NotANumber.

Record Statistics := mkStatistics {
  totalChallans : Z;
  pendingChallans : Z;
  paidChallans : Z;
  totalRevenue : float;
  violationStats : gmap string Count;
  vehicleTypeStats : gmap string Count }.

(** [table[key]++] *)
Definition bump (table : gmap string Count) (key : string) : gmap string Count :=
  <[key := match table !! key with
           | Some (Num n) => Num (n + 1)
           | _ => NotANumber
           end]> table.

(** The body of [querySnapshot.forEach]. *)
Definition tally (stats : Statistics) (challan : Doc) : Statistics :=
  {| totalChallans := totalChallans stats + 1;
     paidChallans :=
       if isPaid challan then paidChallans stats + 1 else paidChallans stats;
     totalRevenue :=
       if isPaid challan then totalRevenue stats + amount challan
       else totalRevenue stats;
     pendingChallans :=
       if isPaid challan then pendingChallans stats else pendingChallans stats + 1;
     violationStats := bump (violationStats stats) (violationType challan);
     vehicleTypeStats := bump (vehicleTypeStats stats) (vehicleType challan) |}.

Section Callback.
(** [vehicleData.statistics], from [data/vehicleData.json], a file the
    sources import and do not contain: a parameter here. *)
Variable initialStatistics : Statistics.

(** The statistics the [onSnapshot] callback builds from a snapshot: a
    copy of the initial ones, then one [tally] per document. *)
Definition computeStatistics (querySnapshot : list Doc) : Statistics :=
  fold_left tally querySnapshot initialStatistics.

(** The callback as a transition of the component's [statistics] state:
    [setStatistics(stats)] replaces whatever was there. *)
Definition onSnapshot (previous : Statistics) (querySnapshot : list Doc) : Statistics :=
  computeStatistics querySnapshot.
End Callback.

(** The sum of [amount] over the paid documents, in snapshot order. *)
Definition paidRevenue (docs : list Doc) : float :=
  fold_left (λ acc d, acc + amount d) (filter (λ d, isPaid d = true) docs) 0.

(** The number of paid documents. *)
Definition paidCount (docs : list Doc) : nat :=
  length (filter (λ d, isPaid d = true) docs).

(** The four scalar counters start from zero. *)
Definition startsFromZero (s : Statistics) : Prop :=
  totalChallans s = 0%Z ∧ pendingChallans s = 0%Z ∧ paidChallans s = 0%Z
  ∧ totalRevenue s = 0.

End AdminDashboard.

(** ** Histories of the record set *)

Module History.
Import Firestore.

(** [produced disciplined st n m]: the store [st] results from [n]
    successful create operations and [m] successful payment operations on an
    empty collection.  A create operation is [createChallan] or a frame of
    the detection path that stores a challan; a payment operation is
    [payChallan] or the payment page's [handlePayment].  In a disciplined
    history every created challan is pending and every payment is applied to
    a challan that is pending at that moment. *)
Inductive produced (disciplined : bool) : Store -> nat -> nat -> Prop :=
| produced_empty :
    produced disciplined emptyStore 0 0
| produced_connectivity st n m b :
    produced disciplined st n m ->
    produced disciplined {| challans := challans st; online := b |} n m
| produced_create st n m data now id st' :
    produced disciplined st n m ->
    (disciplined = true -> status data = pending) ->
    ChallanUtils.createChallan data now st = (Ok id, st') ->
    produced disciplined st' (S n) m
| produced_detect st n m recognize image location camera now result st' :
    produced disciplined st n m ->
    NumberPlateDetection.processVehicleFrame recognize image location camera now st
      = (Some result, st') ->
    produced disciplined st' (S n) m
| produced_pay st n m id now st' :
    produced disciplined st n m ->
    (disciplined = true ->
     ∃ d, challans st !! id = Some d ∧ status d = pending) ->
    ChallanUtils.payChallan id now st = (Ok tt, st') ->
    produced disciplined st' n (S m)
| produced_payment_page st n m loaded method id now st' :
    produced disciplined st n m ->
    (disciplined = true ->
     ∃ d, challans st !! id = Some d ∧ status d = pending) ->
    ChallanPayment.handlePayment loaded method id now st
      = (ChallanPayment.ShowSuccess, st') ->
    produced disciplined st' n (S m).

End History.

(** ** Sample data *)

Module Samples.
Import Firestore.

(** The camera parameters [processFrame] passes for every frame. *)
Definition sessionCamera : VehicleDetection.CameraParams :=
  {| VehicleDetection.focalLength := 35;
     VehicleDetection.sensorWidth := 23.5;
     VehicleDetection.distance := 10000 |}.

(** A challan that was paid by card at time 1000. *)
Definition paidChallan : Doc :=
  {| vehicleNumber := Js.codes "AB12CD3456";
     location := "Main Street No-Entry Zone";
     timestamp := 900%Z;
     amount := 1500;
     status := paid;
     vehicleType := "Car";
     violationType := "No-Entry Zone Violation";
     userId := Some "user123";
     paidAt := Some 1000%Z;
     paymentMethod := Some card;
     dimensions := None |}.

(** A challan nobody has paid yet. *)
Definition pendingChallan : Doc :=
  {| vehicleNumber := Js.codes "KA01MN2345";
     location := "One-Way Street";
     timestamp := 950%Z;
     amount := 2500;
     status := pending;
     vehicleType := "Truck";
     violationType := "No-Entry Zone Violation";
     userId := Some "user123";
     paidAt := None;
     paymentMethod := None;
     dimensions := None |}.

Definition paidStore : Store :=
  {| challans := {[ "c1" := paidChallan ]}; online := true |}.

Definition pendingStore : Store :=
  {| challans := {[ "c1" := pendingChallan ]}; online := true |}.

(** Lookup tables with one violation type and two vehicle types. *)
Definition violationTable : gmap string ChallanUtils.ViolationInfo :=
  {[ "No-Entry Zone Violation" :=
       {| ChallanUtils.violation_amount := 1000;
          ChallanUtils.violation_description := "Entered a no-entry zone" |} ]}.

Definition vehicleTable : gmap string ChallanUtils.VehicleInfo :=
  {[ "Car" := {| ChallanUtils.baseAmount := 500;
                 ChallanUtils.vehicle_description := "Car" |};
     "Truck" := {| ChallanUtils.baseAmount := 2000;
                   ChallanUtils.vehicle_description := "Truck" |} ]}.

(** A 200 by 100 crop and an OCR engine that reads one plate in it. *)
Definition crop : NumberPlateDetection.ImageData :=
  {| NumberPlateDetection.img_width := 200;
     NumberPlateDetection.img_height := 100;
     NumberPlateDetection.img_data := [] |}.

Definition readsPlate (_ : NumberPlateDetection.ImageData) : option Js.text :=
  Some (Js.codes "AB12CD3456").

Definition readsNothing (_ : NumberPlateDetection.ImageData) : option Js.text :=
  Some (Js.codes "AB1CD345").

(** Two pending challans are created, then the first is paid twice. *)
Definition twoCreated : Store :=
  (ChallanUtils.createChallan pendingChallan 10
     (ChallanUtils.createChallan pendingChallan 5 emptyStore).2).2.

Definition paidOnce : Store := (ChallanUtils.payChallan "0" 20 twoCreated).2.

Definition paidTwice : Store := (ChallanUtils.payChallan "0" 30 paidOnce).2.

Definition zeroStatistics : AdminDashboard.Statistics :=
  {| AdminDashboard.totalChallans := 0%Z;
     AdminDashboard.pendingChallans := 0%Z;
     AdminDashboard.paidChallans := 0%Z;
     AdminDashboard.totalRevenue := 0;
     AdminDashboard.violationStats := ∅;
     AdminDashboard.vehicleTypeStats := ∅ |}.

End Samples.

(** ** Orders on vehicle tags and dimensions *)

Module Ranking.
Import VehicleDetection.

(** The position of a tag in the order Motorcycle, Car, Van, Bus, Truck; a
    text that is no tag counts as the largest. *)
Definition tagRank (tag : string) : nat :=
  if decide (tag = "Motorcycle") then 0
  else if decide (tag = "Car") then 1
  else if decide (tag = "Van") then 2
  else if decide (tag = "Bus") then 3
  else 4.

(** [d] is at most [d'] in each of the three dimensions. *)
Definition dimLe (d d' : Dimensions) : bool :=
  (dim_width d <=? dim_width d') && (dim_height d <=? dim_height d')
  && (dim_length d <=? dim_length d').

End Ranking.

(** ** The queries of [utils/challanUtils.ts] *)

Module ChallanQueries.
Import Firestore.

(** A challan as the queries hand it out: [{ id: doc.id, ...doc.data() }]. *)
Record Challan := mkChallan { challan_id : string; challan_doc : Doc }.

Definition withId (entry : string * Doc) : Challan :=
  {| challan_id := entry.1; challan_doc := entry.2 |}.

(** The order of a query without [orderBy]: by document name. *)
Definition byName (a b : string * Doc) : bool := String.leb a.1 b.1.

(** The order of [orderBy('timestamp', 'desc')]: later timestamps first, and
    among equal timestamps by document name, descending as well. *)
Definition newestFirst (a b : string * Doc) : bool :=
  bool_decide (timestamp b.2 < timestamp a.2)%Z
  || (bool_decide (timestamp a.2 = timestamp b.2) && String.leb b.1 a.1).

(** [getDocs(query(collection(firestore, 'challans'), ...))]: the documents
    that satisfy the [where] clauses, in the order of the query. *)
Definition getDocs (matches : Doc -> bool) (order : string * Doc -> string * Doc -> bool)
    (st : Store) : Outcome (list (string * Doc)) :=
  if online st then
    Ok (merge_sort (λ a b, order a b)
          (filter (λ entry, matches entry.2 = true) (map_to_list (challans st))))
  else Err Unavailable.

(** [where('userId', '==', userId)]: a document without the field never
    matches. *)
Definition ofUser (userId : string) (d : Doc) : bool :=
  bool_decide (Firestore.userId d = Some userId).

Definition isPending (d : Doc) : bool := negb (isPaid d).

(** The [catch] block logs and rethrows. *)
Definition getUserChallans (userId : string) (st : Store) : Outcome (list Challan) :=
  match getDocs (ofUser userId) newestFirst st with
  | Ok entries => Ok (withId <$> entries)
  | Err e => Err e
  end.

Definition getPendingChallans (userId : string) (st : Store) : Outcome (list Challan) :=
  match getDocs (λ d, ofUser userId d && isPending d) byName st with
  | Ok entries => Ok (withId <$> entries)
  | Err e => Err e
  end.

(** [null] when the document does not exist. *)
Definition getChallanById (challanId : string) (st : Store) : Outcome (option Challan) :=
  if online st then
    Ok (match challans st !! challanId with
        | Some d => Some {| challan_id := challanId; challan_doc := d |}
        | None => None
        end)
  else Err Unavailable.

(** An entry of the JSON file [addChallansFromJSON] reads. *)
Record Entry := mkEntry {
  vehicleNo : Js.text; charge : float; entry_paid : bool; time : Timestamp }.

(** The challan built for an entry, before [createChallan] stamps it. *)
Definition importedChallan (userId : string) (entry : Entry) : Doc :=
  {| vehicleNumber := vehicleNo entry;
     vehicleType := "Car";
     violationType := "No-Entry Zone Violation";
     location := "Unknown";
     amount := charge entry;
     status := if entry_paid entry then paid else pending;
     Firestore.userId := Some userId;
     timestamp := time entry;
     paidAt := None; paymentMethod := None; dimensions := None |}.

(** The [for] loop: one [createChallan] per entry, the first rejection ends
    the loop and is rethrown.  [serverTime k] is the server's clock at the
    [k]-th write of the run. *)
Fixpoint importEntries (userId : string) (serverTime : nat -> Timestamp) (k : nat)
    (entries : list Entry) (st : Store) : Outcome unit * Store :=
  match entries with
  | [] => (Ok tt, st)
  | entry :: rest =>
      match ChallanUtils.createChallan (importedChallan userId entry) (serverTime k) st with
      | (Ok _, st') => importEntries userId serverTime (S k) rest st'
      | (Err e, st') => (Err e, st')
      end
  end.

(** [addChallansFromJSON], once the file is read and parsed into [entries]. *)
Definition addChallansFromJSON (userId : string) (entries : list Entry)
    (serverTime : nat -> Timestamp) (st : Store) : Outcome unit * Store :=
  importEntries userId serverTime 0 entries st.

End ChallanQueries.

(** ** Manual entry on [pages/admin/AdminDashboard.tsx] *)

Module ManualEntry.
Import Firestore ChallanUtils.

(** The [newChallan] state: the five fields the form holds. *)
Record Form := mkForm {
  form_vehicleNumber : Js.text;
  form_vehicleType : string;
  form_violationType : string;
  form_location : string;
  form_status : Status }.

Record Page := mkPage { newChallan : Form; showAddChallan : bool }.

(** The form as [useState] creates it and as a successful entry leaves it. *)
Definition blankForm : Form :=
  {| form_vehicleNumber := []; form_vehicleType := "car";
     form_violationType := "speeding"; form_location := "";
     form_status := pending |}.

(** The four [onChange] handlers of the form:
    [setNewChallan({ ...newChallan, field: e.target.value })]. *)
Inductive Edit :=
| EditVehicleNumber (value : Js.text)
| EditVehicleType (value : string)
| EditViolationType (value : string)
| EditLocation (value : string).

Definition applyEdit (form : Form) (edit : Edit) : Form :=
  match edit with
  | EditVehicleNumber value =>
      {| form_vehicleNumber := value; form_vehicleType := form_vehicleType form;
         form_violationType := form_violationType form;
         form_location := form_location form; form_status := form_status form |}
  | EditVehicleType value =>
      {| form_vehicleNumber := form_vehicleNumber form; form_vehicleType := value;
         form_violationType := form_violationType form;
         form_location := form_location form; form_status := form_status form |}
  | EditViolationType value =>
      {| form_vehicleNumber := form_vehicleNumber form;
         form_vehicleType := form_vehicleType form; form_violationType := value;
         form_location := form_location form; form_status := form_status form |}
  | EditLocation value =>
      {| form_vehicleNumber := form_vehicleNumber form;
         form_vehicleType := form_vehicleType form;
         form_violationType := form_violationType form;
         form_location := value; form_status := form_status form |}
  end.

(** [{ ...newChallan, timestamp: new Date(), userId: 'user123', amount }] *)
Definition enteredChallan (form : Form) (clientNow : Timestamp) (amount : float) : Doc :=
  {| vehicleNumber := form_vehicleNumber form;
     vehicleType := form_vehicleType form;
     violationType := form_violationType form;
     location := form_location form;
     status := form_status form;
     timestamp := clientNow;
     userId := Some "user123";
     amount := amount;
     paidAt := None; paymentMethod := None; dimensions := None |}.

(** [vehicleData.violations] and [vehicleData.vehicles], from
    [data/vehicleData.json], a file the sources import and do not contain:
    parameters here. *)
Section Tables.
Variable violations : gmap string ViolationInfo.
Variable vehicles : gmap string VehicleInfo.

(** Reading [.amount] of a missing entry throws inside the [try] block, as a
    rejected [addDoc] does: the [catch] block logs, and page and store stay
    as they are.  (The tables are the entries the file lists; the names
    every object inherits are not among the values the form offers.) *)
Definition handleAddChallan (page : Page) (clientNow : Timestamp) (st : Store)
    : Page * Store :=
  let form := newChallan page in
  match violations !! form_violationType form, vehicles !! form_vehicleType form with
  | Some violation, Some vehicle =>
      let challanData :=
        enteredChallan form clientNow (violation_amount violation + baseAmount vehicle) in
      match addDoc challanData st with
      | (Ok _, st') => ({| newChallan := blankForm; showAddChallan := false |}, st')
      | (Err _, _) => (page, st)
      end
  | _, _ => (page, st)
  end.
End Tables.

End ManualEntry.

(** ** Loading a challan on [pages/user/ChallanPayment.tsx] *)

Module PaymentPage.
Import Firestore ChallanPayment.

(** The state [fetchChallan] leaves: the loaded challan or an error. *)
Record Loaded := mkLoaded { challan : option Doc; error : option string }.

(** [challanId] is what [useParams] gave for the name [challanId]: [None]
    when the route has no parameter of that name. *)
Definition fetchChallan (challanId : option string) (st : Store) : Loaded :=
  match challanId with
  | None | Some "" => {| challan := None; error := Some "Challan ID not found" |}
  | Some id =>
      if online st then
        match challans st !! id with
        | Some d => {| challan := Some d; error := None |}
        | None => {| challan := None; error := Some "Challan not found" |}
        end
      else {| challan := None; error := Some "Failed to load challan details" |}
  end.

(** The parameters of the route [/user/challan-payment/:id] that [App]
    declares for the page: one parameter, named [id]. *)
Definition routeParams (segment : string) : gmap string string :=
  {[ "id" := segment ]}.

(** [const { challanId } = useParams()] *)
Definition challanIdOf (params : gmap string string) : option string :=
  params !! "challanId".

(** Opening the page, choosing a payment method and pressing the button:
    [atLoad] is the store when [fetchChallan] runs, [st] the store when the
    button is pressed.  [challanId!] in [handlePayment] is the same route
    parameter. *)
Definition openAndPay (params : gmap string string) (method : option PaymentMethod)
    (now : Timestamp) (atLoad st : Store) : View * Store :=
  let loaded := fetchChallan (challanIdOf params) atLoad in
  handlePayment (challan loaded) method (default "" (challanIdOf params)) now st.

End PaymentPage.

(** ** The per-type counters of the statistics *)

Module Counting.
Import Firestore AdminDashboard.

(** A counter that starts as [start], after [n] increments: a counter that
    is missing or not a number is not a number once it is incremented. *)
Definition counted (start : option Count) (n : nat) : option Count :=
  match n with
  | O => start
  | S _ =>
      Some match start with
           | Some (Num k) => Num (k + Z.of_nat n)
           | _ => NotANumber
           end
  end.

(** How many challans of a snapshot have a given violation or vehicle type. *)
Definition withViolation (key : string) (docs : list Doc) : nat :=
  length (filter (λ d, violationType d = key) docs).

Definition withVehicle (key : string) (docs : list Doc) : nat :=
  length (filter (λ d, vehicleType d = key) docs).

End Counting.

(** ** [processFrame] of [pages/admin/VehicleDetection.tsx] *)

Module DetectionPage.
Import Firestore VehicleDetection NumberPlateDetection.

(** An element of the [violations] state. *)
Record VehicleViolation := mkVehicleViolation {
  viol_id : string;
  viol_vehicleNumber : Js.text;
  viol_vehicleType : string;
  viol_timestamp : Timestamp;
  viol_location : string;
  viol_dimensions : Dimensions }.

(** The camera parameters the function passes for every region. *)
Definition cameraParams : CameraParams :=
  {| focalLength := 35; sensorWidth := 23.5; distance := 10000 |}.

Section Frame.
(** The Tesseract worker, the pixels [getImageData] copies for a region, the
    [location] state, and the server's and the browser's clock at the
    [k]-th region of the frame. *)
Variable recognize : ImageData -> option Js.text.
Variable pixels : Region -> list N.
Variable location : string.
Variable serverTime : nat -> Timestamp.
Variable clientTime : nat -> Timestamp.

(** [vehicleCtx.getImageData(0, 0, vehicle.width, vehicle.height)], for the
    whole numbers of pixels [cv.boundingRect] gives. *)
Definition cropOf (vehicle : Region) : ImageData :=
  {| img_width := width vehicle; img_height := height vehicle;
     img_data := pixels vehicle |}.

Definition newViolation (result : FrameResult) (now : Timestamp) : VehicleViolation :=
  {| viol_id := res_id result;
     viol_vehicleNumber := res_vehicleNumber result;
     viol_vehicleType := res_vehicleType result;
     viol_timestamp := now;
     viol_location := location;
     viol_dimensions := res_dimensions result |}.

(** The [for] loop over the detected regions, from the [k]-th region on:
    [setViolations(prev => [newViolation, ...prev])] for every region that
    gave a challan. *)
Fixpoint processVehicles (k : nat) (vehicles : list Region)
    (violations : list VehicleViolation) (st : Store)
    : list VehicleViolation * Store :=
  match vehicles with
  | [] => (violations, st)
  | vehicle :: rest =>
      match processVehicleFrame recognize (cropOf vehicle) location cameraParams
              (serverTime k) st with
      | (Some result, st') =>
          processVehicles (S k) rest (newViolation result (clientTime k) :: violations) st'
      | (None, st') => processVehicles (S k) rest violations st'
      end
  end.

(** [processFrame], as long as neither OpenCV nor the canvas throws;
    [contours] is what [cv.findContours] finds in the frame. *)
Definition processFrame (contours : list Contour)
    (violations : list VehicleViolation) (st : Store)
    : list VehicleViolation * Store :=
  processVehicles 0 (detectVehicles contours) violations st.
End Frame.

(** [handleGenerateChallan]: the amount it computes is dropped and nothing is
    written to the collection; what remains, besides the alert, is
    [setViolations(prev => prev.filter(v => v.id !== violation.id))]. *)
Definition handleGenerateChallan (violation : VehicleViolation)
    (violations : list VehicleViolation) : list VehicleViolation :=
  filter (λ v, viol_id v ≠ viol_id violation) violations.

End DetectionPage.

(** ** The capture controls of [pages/admin/VehicleDetection.tsx] *)

Module CaptureController.

(** The state of the component that the capture handlers and the buttons
    read, and the work that is under way: [loading] counts the screenshots
    handed to an [Image] whose [onload] has not fired yet, [inFlight] the
    calls of [processFrame] that have not reached their end.
    [processingInterval] is the handle of the armed timer, if any. *)
Record Session := mkSession {
  isWebcamActive : bool;
  cameraPermission : bool;
  processingInterval : bool;
  isProcessing : bool;
  uploadedVideo : bool;
  showErrorAlert : bool;
  errorMessage : string;
  loading : nat;
  inFlight : nat }.

(** The component as [useState] creates it. *)
Definition initial : Session :=
  {| isWebcamActive := false; cameraPermission := false;
     processingInterval := false; isProcessing := false; uploadedVideo := false;
     showErrorAlert := false; errorMessage := ""; loading := 0; inFlight := 0 |}.















End CaptureController.

(** ** Every write to the collection *)

Module Evolution.
Import Firestore.

(** One operation of the sources on the store.  With [strict] the two
    operations that store a challan exactly as their caller built it,
    [createChallan] and the JSON import, are left out, and the manual form
    holds the status it was created with. *)
Inductive step (strict : bool) : Store -> Store -> Prop :=
| step_connectivity st b :
    step strict st {| challans := challans st; online := b |}
| step_detect recognize image location camera now st :
    step strict st
      (NumberPlateDetection.processVehicleFrame recognize image location camera now st).2
| step_pay id now st :
    step strict st (ChallanUtils.payChallan id now st).2
| step_payment_page loaded method id now st :
    step strict st (ChallanPayment.handlePayment loaded method id now st).2
| step_manual violations vehicles page clientNow st :
    (strict = true -> ManualEntry.form_status (ManualEntry.newChallan page) = pending) ->
    step strict st (ManualEntry.handleAddChallan violations vehicles page clientNow st).2
| step_create data now st :
    strict = false ->
    step strict st (ChallanUtils.createChallan data now st).2
| step_import userId entries serverTime st :
    strict = false ->
    step strict st (ChallanQueries.addChallansFromJSON userId entries serverTime st).2.

(** Any number of operations, one after the other. *)
Definition evolves (strict : bool) : Store -> Store -> Prop := rtc (step strict).

(** [d'] is [d] after payments: everything but the payment fields is the
    same, a paid challan is still paid and a payment time is still there. *)
Definition sameChallan (d d' : Doc) : Prop :=
  vehicleNumber d' = vehicleNumber d ∧ location d' = location d
  ∧ timestamp d' = timestamp d ∧ amount d' = amount d
  ∧ vehicleType d' = vehicleType d ∧ violationType d' = violationType d
  ∧ userId d' = userId d ∧ dimensions d' = dimensions d
  ∧ (status d = paid → status d' = paid)
  ∧ (is_Some (paidAt d) → is_Some (paidAt d'))
  ∧ (is_Some (paymentMethod d) → is_Some (paymentMethod d')).

(** A pending challan carries no payment data and a paid one a payment time. *)
Definition paymentConsistent (d : Doc) : Prop :=
  (status d = pending → paidAt d = None ∧ paymentMethod d = None)
  ∧ (status d = paid → is_Some (paidAt d)).

(** Every challan of [st] is still in [st'], the same but for payments. *)
Definition kept (st st' : Store) : Prop :=
  ∀ id d, challans st !! id = Some d →
          ∃ d', challans st' !! id = Some d' ∧ sameChallan d d'.

(** Every stored challan has consistent payment fields. *)
Definition consistent (st : Store) : Prop :=
  ∀ id d, challans st !! id = Some d → paymentConsistent d.

End Evolution.

(** ** The detection page over time *)

Module PageHistory.
Import Firestore NumberPlateDetection DetectionPage.

(** The [violations] state of the page and the collection. *)
Record Page := mkPage { violations : list VehicleViolation; store : Store }.

(** What can happen while the page is open: a region of a frame gives a
    challan and its violation is put in front of the list (frames may
    overlap, so regions are taken one by one); a challan is generated for a
    violation of the list; anything else writes to the collection. *)
Inductive pageStep : Page -> Page -> Prop :=
| page_region recognize image location now clientNow p result st' :
    processVehicleFrame recognize image location cameraParams now (store p)
      = (Some result, st') ->
    pageStep p {| violations := newViolation location result clientNow :: violations p;
                  store := st' |}
| page_generate violation p :
    pageStep p {| violations := handleGenerateChallan violation (violations p);
                  store := store p |}
| page_store strict p st' :
    Evolution.step strict (store p) st' ->
    pageStep p {| violations := violations p; store := st' |}.

(** Every violation of the list names a stored challan that agrees with it,
    and no two violations name the same challan. *)
Definition listed (p : Page) : Prop :=
  NoDup (viol_id <$> violations p)
  ∧ ∀ v, v ∈ violations p →
      ∃ d, challans (store p) !! viol_id v = Some d
           ∧ vehicleNumber d = viol_vehicleNumber v
           ∧ vehicleType d = viol_vehicleType v
           ∧ dimensions d = Some (viol_dimensions v)
           ∧ Firestore.location d = viol_location v
           ∧ userId d = None.

End PageHistory.

(** ** More sample data *)

Module MoreSamples.
Import Firestore.

(** One frame of the detection path on an empty collection, then a payment
    of the challan it created. *)
Definition detected : Store :=
  (NumberPlateDetection.processVehicleFrame Samples.readsPlate Samples.crop
     "One-Way Street" Samples.sessionCamera 0 emptyStore).2.

Definition detectedThenPaid : Store := (ChallanUtils.payChallan "0" 20 detected).2.

(** The challan the frame stored. *)
Definition detectedDoc : Doc :=
  NumberPlateDetection.detectedChallan (Js.codes "AB12CD3456") "Truck"
    "One-Way Street" 0 2500
    (VehicleDetection.calculateVehicleDimensions
       (VehicleDetection.mkBoundingBox 200 100) Samples.sessionCamera).

End MoreSamples.

(** * Properties *)

(** ** The vehicle classifier *)

Section Classifier.
Import VehicleDetection.

Lemma classify_firstMatch d :
  classifyVehicleType d = firstMatch orderedRules "Truck" d.
Proof. reflexivity. Qed.

Lemma firstMatch_tag rules fallback d :
  firstMatch rules fallback d = fallback
  ∨ firstMatch rules fallback d ∈ rules.*2.
Proof.
  induction rules as [|[guard tag] rest IH]; cbn; [by left|].
  destruct (guard d); [right; left|].
  destruct IH as [->|IH]; [by left|by right; right].
Qed.

Lemma classify_in_tags d : classifyVehicleType d ∈ vehicleTags.
Proof.
  rewrite classify_firstMatch.
  pose proof (firstMatch_tag orderedRules "Truck" d) as H.
  generalize dependent (firstMatch orderedRules "Truck" d).
  intros tag [->|H].
  - unfold vehicleTags. do 4 apply list_elem_of_further. apply list_elem_of_here.
  - unfold vehicleTags. cbn in H.
    repeat (apply elem_of_cons in H as [->|H];
            [repeat first [apply list_elem_of_here|apply list_elem_of_further]|]).
    by apply elem_of_nil in H.
Qed.

Lemma motorcycle_iff d :
  classifyVehicleType d = "Motorcycle"
  ↔ (dim_width d <? 1.3) && (dim_length d <? 2.5) = true.
Proof.
  unfold classifyVehicleType.
  destruct ((dim_width d <? 1.3) && (dim_length d <? 2.5)); [done|].
  split; [|done].
  repeat match goal with |- context [if ?b then _ else _] => destruct b end;
    discriminate.
Qed.

(** C1.  The classifier is the first-match evaluation of the four ordered
    threshold rules with [Truck] as the fallback; on every input, NaN and
    infinities included, it yields exactly one of the five tags; a width of
    [1.3] is never a Motorcycle, and a width of [1.29999] with a length
    below [2.5] always is. *)
Theorem classifier_ordered_first_match :
  (∀ d, classifyVehicleType d = firstMatch orderedRules "Truck" d)
  ∧ (∀ d, exists! tag, tag ∈ vehicleTags ∧ classifyVehicleType d = tag)
  ∧ (∀ h l, classifyVehicleType
              {| dim_width := 1.3; dim_height := h; dim_length := l |} ≠ "Motorcycle")
  ∧ (∀ h l, (l <? 2.5) = true →
            classifyVehicleType
              {| dim_width := 1.29999; dim_height := h; dim_length := l |} = "Motorcycle").
Proof.
  split; [exact classify_firstMatch|].
  split.
  { intros d. exists (classifyVehicleType d). split.
    - split; [apply classify_in_tags|reflexivity].
    - by intros tag [_ <-]. }
  split.
  - intros h l H. apply motorcycle_iff in H. cbn in H.
    replace (1.3 <? 1.3) with false in H by reflexivity. discriminate.
  - intros h l Hl. apply motorcycle_iff. cbn.
    replace (1.29999 <? 1.3) with true by reflexivity. by rewrite Hl.
Qed.

Lemma classifier_ordered_first_match_witness :
  (2 <? 2.5) = true
  ∧ classifyVehicleType
      {| dim_width := 1.29999; dim_height := 1; dim_length := 2 |} = "Motorcycle".
Proof.
  split; [reflexivity|].
  apply (proj2 (proj2 (proj2 classifier_ordered_first_match)) 1 2).
  reflexivity.
Defined.

End Classifier.

(** ** The region gate *)

Section RegionGate.
Import VehicleDetection.

Lemma detectStep_gate acc c :
  detectStep acc c = if openGate c then acc ++ [regionOf c] else acc.
Proof.
  unfold detectStep, openGate, aspectRatioOf, Js.gt.
  destruct (1000 <? contourArea c); [|done].
  by destruct (0.5 <? _), (_ <? 2.5).
Qed.

Lemma fold_detectStep cs acc :
  fold_left detectStep cs acc
  = acc ++ (regionOf <$> filter (λ c, openGate c = true) cs).
Proof.
  revert acc. induction cs as [|c cs IH]; intros acc.
  - cbn. by rewrite app_nil_r.
  - rewrite filter_cons. cbn [fold_left]. rewrite IH, detectStep_gate.
    destruct (openGate c) eqn:E.
    + rewrite decide_True by done. rewrite fmap_cons. by rewrite <- app_assoc.
    + rewrite decide_False by done. done.
Qed.

(** C6, as the code has it.  The detector keeps the bounding regions of
    exactly the contours whose area exceeds 1000 and whose aspect ratio lies
    strictly between 0.5 and 2.5, in contour order; a contour on its own is
    kept if and only if it passes that open gate. *)
Theorem region_gate_open_interval :
  (∀ cs, detectVehicles cs = regionOf <$> filter (λ c, openGate c = true) cs)
  ∧ (∀ c, detectVehicles [c] = [regionOf c]
          ↔ Js.gt (contourArea c) 1000 = true
            ∧ (0.5 <? aspectRatioOf c) = true ∧ (aspectRatioOf c <? 2.5) = true)
  ∧ (∀ c, openGate c = false → detectVehicles [c] = []).
Proof.
  split; [intros cs; apply fold_detectStep|].
  split.
  - intros c. unfold detectVehicles. cbn [fold_left]. rewrite detectStep_gate.
    unfold openGate, Js.gt.
    destruct (1000 <? contourArea c), (0.5 <? aspectRatioOf c),
      (aspectRatioOf c <? 2.5); cbn [andb app]; split; intros H;
      first [discriminate H | by destruct H as (? & ? & ?) | by repeat split].
  - intros c H. unfold detectVehicles. cbn [fold_left]. by rewrite detectStep_gate, H.
Qed.

Lemma region_gate_open_interval_witness :
  detectVehicles [ {| contourArea := 2000;
                      boundingRect := mkRect 0 0 50 100 |} ] = [].
Proof.
  apply (proj2 (proj2 region_gate_open_interval)). reflexivity.
Defined.

(** C6, as the claim has it, fails: a contour of area 2000 whose bounding
    rectangle is 50 by 100 has aspect ratio exactly 0.5, inside the closed
    interval, and is dropped. *)
Lemma region_gate_lower_bound_dropped :
  let c := {| contourArea := 2000; boundingRect := mkRect 0 0 50 100 |} in
  aspectRatioOf c = 0.5 ∧ closedGate c = true ∧ detectVehicles [c] = [].
Proof. cbv zeta. split; [|split]; reflexivity. Qed.

End RegionGate.

(** ** The dimension estimator and the camera parameters *)

Section SensorWidth.
Import VehicleDetection.

(** C10.  The estimate does not depend on [sensorWidth]: two parameter sets
    with the same focal length and distance give the same dimensions for
    every bounding box. *)
Theorem dimensions_ignore_sensorWidth boundingBox p1 p2 :
  focalLength p1 = focalLength p2 →
  distance p1 = distance p2 →
  calculateVehicleDimensions boundingBox p1
  = calculateVehicleDimensions boundingBox p2.
Proof.
  intros Hf Hd. unfold calculateVehicleDimensions. by rewrite Hf, Hd.
Qed.

Lemma dimensions_ignore_sensorWidth_witness :
  calculateVehicleDimensions (mkBoundingBox 200 100) (mkCameraParams 35 23.5 10000)
  = calculateVehicleDimensions (mkBoundingBox 200 100) (mkCameraParams 35 36 10000).
Proof.
  apply dimensions_ignore_sensorWidth; reflexivity.
Defined.

End SensorWidth.

(** ** The fine lookup *)

Section FineLookup.
Import ChallanUtils.

(** C9.  For every pair of keys the two tables enumerate, the fine is the
    violation's amount plus the vehicle type's base amount; the value is the
    same wherever the call stands in a sequence of calls. *)
Theorem getChallanAmount_additive
    (violationTypes : gmap string ViolationInfo)
    (vehicleTypes : gmap string VehicleInfo)
    (violationType vehicleType : string) violation vehicle :
  violationTypes !! violationType = Some violation →
  vehicleTypes !! vehicleType = Some vehicle →
  getChallanAmount violationTypes vehicleTypes violationType vehicleType
  = Some (violation_amount violation + baseAmount vehicle)
  ∧ ∀ before after,
      callSequence violationTypes vehicleTypes
        (before ++ (violationType, vehicleType) :: after) !! length before
      = Some (Some (violation_amount violation + baseAmount vehicle)).
Proof.
  intros Hv Ht.
  assert (getChallanAmount violationTypes vehicleTypes violationType vehicleType
          = Some (violation_amount violation + baseAmount vehicle)) as Hcall.
  { unfold getChallanAmount. by rewrite Hv, Ht. }
  split; [exact Hcall|].
  intros before after. unfold callSequence.
  rewrite list_lookup_fmap, list_lookup_middle by done.
  cbn. by rewrite Hcall.
Qed.

Lemma getChallanAmount_additive_witness :
  getChallanAmount Samples.violationTable Samples.vehicleTable
    "No-Entry Zone Violation" "Truck" = Some 3000.
Proof.
  apply (getChallanAmount_additive Samples.violationTable Samples.vehicleTable
           "No-Entry Zone Violation" "Truck"
           (mkViolationInfo 1000 "Entered a no-entry zone")
           (mkVehicleInfo 2000 "Truck")); reflexivity.
Defined.

End FineLookup.

(** ** The payment transition *)

Section Payment.
Import Firestore ChallanUtils ChallanPayment.

Lemma updateDoc_missing id fields st :
  challans st !! id = None →
  ∃ e, updateDoc id fields st = (Err e, st).
Proof.
  intros H. unfold updateDoc. rewrite H.
  destruct (online st); eauto.
Qed.

Lemma updateDoc_present id fields st d :
  challans st !! id = Some d →
  online st = true →
  updateDoc id fields st
  = (Ok tt, withChallans st (<[id := fields d]> (challans st))).
Proof. intros H Ho. unfold updateDoc. by rewrite Ho, H. Qed.

Lemma updateDoc_failure id fields st e st' :
  updateDoc id fields st = (Err e, st') → st' = st.
Proof.
  unfold updateDoc.
  destruct (online st); [destruct (challans st !! id)|]; congruence.
Qed.

(** A write that sets [status] to [paid] leaves every paid challan paid. *)
Lemma updateDoc_keeps_paid id fields st out st' j d :
  (∀ c, status (fields c) = paid) →
  updateDoc id fields st = (out, st') →
  challans st !! j = Some d →
  status d = paid →
  ∃ d', challans st' !! j = Some d' ∧ status d' = paid.
Proof.
  intros Hf H Hj Hd. unfold updateDoc in H.
  destruct (online st); [destruct (challans st !! id) as [c|] eqn:Hc|];
    simplify_eq; eauto.
  cbn. destruct (decide (id = j)) as [->|Hne].
  - rewrite lookup_insert_eq. eauto.
  - rewrite lookup_insert_ne by done. eauto.
Qed.

(** C2, as the code has it.  A payment only ever writes the status [paid]: a
    paid challan is never pending again.  On an identifier the collection
    does not have it fails explicitly ([payChallan] rejects, the payment
    page shows an error) and, like every failed payment, changes nothing.
    On a challan that exists in a reachable store it succeeds whatever the
    current status: it sets [paidAt] to the time of this call ([payChallan])
    and also [paymentMethod] to this call's method (the payment page), and
    touches no other challan. *)
Theorem payment_sets_paid_whatever_status :
  (∀ id now st,
      challans st !! id = None →
      (∃ e, payChallan id now st = (Err e, st))
      ∧ ∀ loaded method, ∃ message,
          handlePayment (Some loaded) (Some method) id now st
          = (ShowError message, st))
  ∧ (∀ id now st e st', payChallan id now st = (Err e, st') → st' = st)
  ∧ (∀ loaded method id now st message st',
      handlePayment loaded method id now st = (ShowError message, st') → st' = st)
  ∧ (∀ id now st d,
      challans st !! id = Some d → online st = true →
      ∃ st', payChallan id now st = (Ok tt, st')
        ∧ challans st' !! id = Some (paidFields now d)
        ∧ status (paidFields now d) = paid
        ∧ paidAt (paidFields now d) = Some now
        ∧ paymentMethod (paidFields now d) = paymentMethod d
        ∧ ∀ j, j ≠ id → challans st' !! j = challans st !! j)
  ∧ (∀ loaded method id now st d,
      challans st !! id = Some d → online st = true →
      ∃ st', handlePayment (Some loaded) (Some method) id now st = (ShowSuccess, st')
        ∧ challans st' !! id = Some (paymentFields method now d)
        ∧ status (paymentFields method now d) = paid
        ∧ paidAt (paymentFields method now d) = Some now
        ∧ paymentMethod (paymentFields method now d) = Some method
        ∧ ∀ j, j ≠ id → challans st' !! j = challans st !! j)
  ∧ (∀ id now st out st' j d,
      payChallan id now st = (out, st') →
      challans st !! j = Some d → status d = paid →
      ∃ d', challans st' !! j = Some d' ∧ status d' = paid)
  ∧ (∀ loaded method id now st view st' j d,
      handlePayment loaded method id now st = (view, st') →
      challans st !! j = Some d → status d = paid →
      ∃ d', challans st' !! j = Some d' ∧ status d' = paid).
Proof.
  repeat split.
  - by apply updateDoc_missing.
  - intros loaded method. unfold handlePayment.
    destruct (updateDoc_missing id (paymentFields method now) st H) as [e ->].
    eauto.
  - intros id now st e st'. apply updateDoc_failure.
  - intros loaded method id now st message st'. unfold handlePayment.
    destruct loaded, method; try congruence.
    destruct (updateDoc _ _ _) as [[[]|e] st'']; congruence.
  - intros id now st d H Ho. unfold payChallan.
    rewrite (updateDoc_present _ _ _ _ H Ho). eexists. split; [done|].
    cbn. rewrite lookup_insert_eq. repeat split.
    intros j Hj. by rewrite lookup_insert_ne.
  - intros loaded method id now st d H Ho. unfold handlePayment.
    rewrite (updateDoc_present _ _ _ _ H Ho). eexists. split; [done|].
    cbn. rewrite lookup_insert_eq. repeat split.
    intros j Hj. by rewrite lookup_insert_ne.
  - intros id now st out st' j d. by apply updateDoc_keeps_paid.
  - intros loaded method id now st view st' j d H Hj Hd. unfold handlePayment in H.
    destruct loaded, method; simplify_eq; eauto.
    destruct (updateDoc _ _ _) as [[[]|e] st''] eqn:Hu; simplify_eq; eauto.
    eapply updateDoc_keeps_paid; [|exact Hu|exact Hj|exact Hd]. done.
Qed.

Lemma payment_sets_paid_whatever_status_witness :
  ∃ st', payChallan "c1" 2000 Samples.pendingStore = (Ok tt, st')
    ∧ challans st' !! "c1" = Some (paidFields 2000 Samples.pendingChallan).
Proof.
  destruct (proj1 (proj2 (proj2 (proj2 payment_sets_paid_whatever_status)))
              "c1" 2000%Z Samples.pendingStore Samples.pendingChallan)
    as (st' & H1 & H2 & _); [reflexivity|reflexivity|].
  exists st'. by split.
Defined.

(** C2, as the claim has it, fails: a second payment of a challan paid at
    time 1000 by card does not fail.  [payChallan] resolves and moves
    [paidAt] to 2000; the payment page shows success and also replaces the
    payment method. *)
Lemma second_payment_succeeds_and_overwrites :
  challans Samples.paidStore !! "c1" = Some Samples.paidChallan
  ∧ paidAt Samples.paidChallan = Some 1000%Z
  ∧ (payChallan "c1" 2000 Samples.paidStore).1 = Ok tt
  ∧ paidAt <$> challans (payChallan "c1" 2000 Samples.paidStore).2 !! "c1"
    = Some (Some 2000%Z)
  ∧ (handlePayment (Some Samples.paidChallan) (Some wallet) "c1" 2000
       Samples.paidStore).1 = ShowSuccess
  ∧ paymentMethod
      <$> challans (handlePayment (Some Samples.paidChallan) (Some wallet) "c1" 2000
                      Samples.paidStore).2 !! "c1"
    = Some (Some wallet).
Proof. repeat split; reflexivity. Qed.

End Payment.

(** ** The plate extractor *)

Section PlateExtractor.
Import Firestore VehicleDetection NumberPlateDetection.

(** *** The engine and the language of a pattern *)

Lemma matchHere_star p rest s :
  matchHere (StarClass p :: rest) s
  = match s with
    | c :: s' =>
        if p c then
          match matchHere (StarClass p :: rest) s' with
          | Some m => Some (c :: m)
          | None => matchHere rest s
          end
        else matchHere rest s
    | [] => matchHere rest []
    end.
Proof. by destruct s. Qed.

Lemma matchHere_sound re s m :
  matchHere re s = Some m → accepts re m ∧ ∃ rest, s = m ++ rest.
Proof.
  revert s m. induction re as [|[p|p] rest IH]; intros s m H.
  - cbn in H. simplify_eq. split; [constructor|by exists s].
  - cbn in H. destruct s as [|c s']; [done|].
    destruct (p c) eqn:Hp; [|done].
    destruct (matchHere rest s') as [m'|] eqn:Hm; [|done].
    cbn in H. simplify_eq. destruct (IH _ _ Hm) as [Ha [r ->]].
    split; [by constructor|by exists r].
  - revert m H. induction s as [|c s' IHs]; intros m H;
      rewrite matchHere_star in H.
    + destruct (IH _ _ H) as [Ha [r Hr]]. split; [by constructor|by exists r].
    + destruct (p c) eqn:Hp.
      * destruct (matchHere (StarClass p :: rest) s') as [m'|] eqn:Hm.
        -- simplify_eq. destruct (IHs _ eq_refl) as [Ha [r ->]].
           split; [by constructor|by exists r].
        -- destruct (IH _ _ H) as [Ha [r Hr]].
           split; [by constructor|by exists r].
      * destruct (IH _ _ H) as [Ha [r Hr]].
        split; [by constructor|by exists r].
Qed.

Lemma matchHere_complete re m rest :
  accepts re m → is_Some (matchHere re (m ++ rest)).
Proof.
  induction 1 as [|p re c m Hp _ IH|p re m _ IH|p re c m Hp _ IH].
  - by eexists.
  - cbn. rewrite Hp. destruct IH as [m' ->]. by eexists.
  - rewrite matchHere_star. destruct (m ++ rest) as [|c s']; [done|].
    destruct (p c); [|done]. by destruct (matchHere (StarClass p :: re) s').
  - rewrite <- app_comm_cons, matchHere_star, Hp.
    destruct IH as [m' ->]. by eexists.
Qed.

Lemma search_None re s :
  search re s = None ↔ ∀ i, matchHere re (drop i s) = None.
Proof.
  induction s as [|c s IH]; cbn.
  - destruct (matchHere re []) eqn:E.
    + split; [done|]. intros H. specialize (H 0%nat). cbn in H. congruence.
    + split; [|done]. intros _ i. by rewrite drop_nil.
  - destruct (matchHere re (c :: s)) eqn:E.
    + split; [done|]. intros H. specialize (H 0%nat). cbn in H. congruence.
    + rewrite IH. split.
      * intros H [|i]; [done|apply H].
      * intros H i. apply (H (S i)).
Qed.

Lemma search_Some re s p :
  search re s = Some p →
  ∃ i, matchHere re (drop i s) = Some p
       ∧ ∀ j, (j < i)%nat → matchHere re (drop j s) = None.
Proof.
  induction s as [|c s IH]; cbn.
  - destruct (matchHere re []) eqn:E; [|done].
    intros [= ->]. exists 0%nat. split; [done|lia].
  - destruct (matchHere re (c :: s)) eqn:E.
    + intros [= ->]. exists 0%nat. split; [done|lia].
    + intros H. destruct (IH H) as (i & Hi & Hlt).
      exists (S i). split; [done|].
      intros [|j] Hj; [done|]. apply Hlt. lia.
Qed.

Lemma head_scan re s : head (scan re 0 s) = search re s.
Proof.
  induction s as [|c s IH]; cbn.
  - by destruct (matchHere re []).
  - by destruct (matchHere re (c :: s)).
Qed.

Lemma stringMatch_head re s :
  (stringMatch re s ≫= head) = search re s.
Proof.
  unfold stringMatch. rewrite <- head_scan.
  by destruct (scan re 0 s).
Qed.

(** *** The pattern and the plate format *)

Lemma accepts_star_run p rest w m :
  Forall (λ c, p c = true) w → accepts rest m →
  accepts (StarClass p :: rest) (w ++ m).
Proof.
  intros Hw Hm. induction Hw as [|c w Hc _ IH]; cbn.
  - by constructor.
  - by apply accepts_star_more.
Qed.

Lemma accepts_star_inv p rest m :
  accepts (StarClass p :: rest) m →
  ∃ w m', m = w ++ m' ∧ Forall (λ c, p c = true) w ∧ accepts rest m'.
Proof.
  remember (StarClass p :: rest) as re eqn:Ere. intros H.
  induction H as [| | |q re' c m Hq H IH]; simplify_eq.
  - by exists [], m.
  - destruct (IH eq_refl) as (w & m' & -> & Hw & Hm').
    exists (c :: w), m'. split; [done|]. split; [by constructor|done].
Qed.

Lemma accepts_class_inv p rest m :
  accepts (Class p :: rest) m →
  ∃ c m', m = c :: m' ∧ p c = true ∧ accepts rest m'.
Proof. inversion 1; simplify_eq. eauto. Qed.

Lemma accepts_nil_inv m : accepts [] m → m = [].
Proof. by inversion 1. Qed.

Lemma plateShape_accepts p : plateShape p ↔ accepts numberPlateRegex p.
Proof.
  unfold numberPlateRegex. split.
  - intros (l1 & w1 & d1 & w2 & l2 & w3 & d2 & -> & Hl1 & Fl1 & Fw1 & Hd1 & Fd1
            & Fw2 & Hl2 & Fl2 & Fw3 & Hd2 & Fd2).
    destruct l1 as [|a1 [|a2 [|]]]; try done.
    destruct d1 as [|b1 [|b2 [|]]]; try done.
    destruct l2 as [|a3 [|a4 [|]]]; try done.
    destruct d2 as [|b3 [|b4 [|b5 [|b6 [|]]]]]; try done.
    repeat match goal with
           | H : Forall _ (_ :: _) |- _ => apply Forall_cons in H as [? H]
           end.
    cbn [app].
    do 2 (apply accepts_class; [done|]). apply accepts_star_run; [done|].
    cbn [app].
    do 2 (apply accepts_class; [done|]). apply accepts_star_run; [done|].
    cbn [app].
    do 2 (apply accepts_class; [done|]). apply accepts_star_run; [done|].
    do 4 (apply accepts_class; [done|]). constructor.
  - intros H.
    apply accepts_class_inv in H as (a1 & m1 & -> & Ha1 & H).
    apply accepts_class_inv in H as (a2 & m2 & -> & Ha2 & H).
    apply accepts_star_inv in H as (w1 & m3 & -> & Hw1 & H).
    apply accepts_class_inv in H as (b1 & m4 & -> & Hb1 & H).
    apply accepts_class_inv in H as (b2 & m5 & -> & Hb2 & H).
    apply accepts_star_inv in H as (w2 & m6 & -> & Hw2 & H).
    apply accepts_class_inv in H as (a3 & m7 & -> & Ha3 & H).
    apply accepts_class_inv in H as (a4 & m8 & -> & Ha4 & H).
    apply accepts_star_inv in H as (w3 & m9 & -> & Hw3 & H).
    apply accepts_class_inv in H as (b3 & m10 & -> & Hb3 & H).
    apply accepts_class_inv in H as (b4 & m11 & -> & Hb4 & H).
    apply accepts_class_inv in H as (b5 & m12 & -> & Hb5 & H).
    apply accepts_class_inv in H as (b6 & m13 & -> & Hb6 & H).
    apply accepts_nil_inv in H as ->.
    exists [a1; a2], w1, [b1; b2], w2, [a3; a4], w3, [b3; b4; b5; b6].
    repeat split; try done; by repeat constructor.
Qed.

Lemma matchHere_plate s p :
  matchHere numberPlateRegex s = Some p → plateShape p ∧ occursAt p s 0.
Proof.
  intros H. apply matchHere_sound in H as [Ha [rest ->]].
  split; [by apply plateShape_accepts|by exists rest].
Qed.

Lemma matchHere_no_plate s i q :
  matchHere numberPlateRegex (drop i s) = None →
  plateShape q → ¬ occursAt q s i.
Proof.
  intros H Hq [rest Hr]. apply plateShape_accepts in Hq.
  destruct (matchHere_complete _ _ rest Hq) as [m Hm].
  rewrite <- Hr in Hm. congruence.
Qed.

Lemma plateShape_length p : plateShape p → (10 ≤ length p)%nat.
Proof.
  intros (l1 & w1 & d1 & w2 & l2 & w3 & d2 & -> & Hl1 & _ & _ & Hd1 & _
          & _ & Hl2 & _ & _ & Hd2 & _).
  rewrite !length_app. lia.
Qed.

(** The first match is a plate, and no plate starts left of it. *)
Lemma search_leftmost s p :
  search numberPlateRegex s = Some p →
  plateShape p
  ∧ ∃ i, occursAt p s i
         ∧ ∀ j q, (j < i)%nat → plateShape q → ¬ occursAt q s j.
Proof.
  intros H. apply search_Some in H as (i & Hi & Hlt).
  apply matchHere_plate in Hi as [Hp [rest Hr]]. split; [done|].
  exists i. split; [exists rest; exact Hr|].
  intros j q Hj. apply matchHere_no_plate. by apply Hlt.
Qed.

Lemma search_none_iff s :
  search numberPlateRegex s = None
  ↔ ∀ i q, plateShape q → ¬ occursAt q s i.
Proof.
  rewrite search_None. split.
  - intros H i q. apply matchHere_no_plate, H.
  - intros H i. destruct (matchHere numberPlateRegex (drop i s)) as [p|] eqn:E;
      [|done].
    apply matchHere_plate in E as [Hp [rest Hr]].
    destruct (H i p Hp). exists rest. exact Hr.
Qed.

(** *** The extractor *)

Lemma detectNumberPlate_search recognize image text :
  recognize image = Some text →
  detectNumberPlate recognize image = search numberPlateRegex text.
Proof.
  intros H. unfold detectNumberPlate. rewrite H, <- stringMatch_head.
  by destruct (stringMatch numberPlateRegex text).
Qed.

Lemma detectNumberPlate_plate recognize image p :
  detectNumberPlate recognize image = Some p → plateShape p.
Proof.
  unfold detectNumberPlate. destruct (recognize image) as [text|] eqn:E; [|done].
  intros H.
  assert (search numberPlateRegex text = Some p) as Hs.
  { rewrite <- stringMatch_head. by destruct (stringMatch numberPlateRegex text). }
  by apply search_leftmost in Hs as [? _].
Qed.

(** C5.  The two well-formed sample plates match and the malformed one does
    not; when two plates occur the array lists them left to right and the
    first is returned.  For any recognised text: the extractor returns
    [null] exactly when no text of the plate format (two capitals, optional
    white space, two digits, optional white space, two capitals, optional
    white space, four digits) occurs anywhere in it; what it returns is the
    first element of the array of matches, has the plate format, and no
    text of the plate format starts left of it.  When the extractor returns
    [null] the frame creates no challan: the store is unchanged. *)
Theorem plate_extractor_first_match :
  stringMatch numberPlateRegex (Js.codes "AB12CD3456")
  = Some [Js.codes "AB12CD3456"]
  ∧ stringMatch numberPlateRegex (Js.codes "AB 12 CD 3456")
    = Some [Js.codes "AB 12 CD 3456"]
  ∧ stringMatch numberPlateRegex (Js.codes "AB1CD345") = None
  ∧ stringMatch numberPlateRegex (Js.codes "seen KA01AB1234 then MH12CD5678")
    = Some [Js.codes "KA01AB1234"; Js.codes "MH12CD5678"]
  ∧ (∀ recognize image text,
      recognize image = Some text →
      (detectNumberPlate recognize image = None
       ↔ ∀ i q, plateShape q → ¬ occursAt q text i)
      ∧ detectNumberPlate recognize image
        = stringMatch numberPlateRegex text ≫= head
      ∧ ∀ p, detectNumberPlate recognize image = Some p →
             plateShape p
             ∧ ∃ i, occursAt p text i
                    ∧ ∀ j q, (j < i)%nat → plateShape q → ¬ occursAt q text j)
  ∧ (∀ recognize image location camera now st,
      detectNumberPlate recognize image = None →
      processVehicleFrame recognize image location camera now st = (None, st)).
Proof.
  split; [reflexivity|]. split; [reflexivity|]. split; [reflexivity|].
  split; [reflexivity|]. split.
  - intros recognize image text H.
    rewrite (detectNumberPlate_search _ _ _ H). split; [apply search_none_iff|].
    split; [by rewrite stringMatch_head|]. intros p. apply search_leftmost.
  - intros recognize image location camera now st H.
    unfold processVehicleFrame. by rewrite H.
Qed.

Lemma plate_extractor_first_match_witness :
  detectNumberPlate Samples.readsNothing Samples.crop = None
  ∧ processVehicleFrame Samples.readsNothing Samples.crop "One-Way Street"
      Samples.sessionCamera 0 emptyStore = (None, emptyStore).
Proof.
  split; [reflexivity|].
  apply (proj2 (proj2 (proj2 (proj2 (proj2 plate_extractor_first_match))))).
  reflexivity.
Defined.

End PlateExtractor.

(** ** The automatic creation path *)

Section AutomaticPath.
Import Firestore VehicleDetection NumberPlateDetection.

Lemma addDoc_online data st :
  online st = true →
  addDoc data st
  = (Ok (fresh (dom (challans st))),
     withChallans st (<[fresh (dom (challans st)) := data]> (challans st))).
Proof. intros H. unfold addDoc. by rewrite H. Qed.

Lemma addDoc_Ok data st id st' :
  addDoc data st = (Ok id, st') →
  challans st !! id = None
  ∧ challans st' = <[id := data]> (challans st)
  ∧ online st' = online st.
Proof.
  unfold addDoc. destruct (online st) eqn:Ho; [|done].
  intros [= <- <-]. split; [|done].
  apply not_elem_of_dom, is_fresh.
Qed.

(** The fine of every tag the classifier can produce. *)
Lemma calculateFine_of_tag d :
  let tag := classifyVehicleType d in
  (tag = "Motorcycle" ∧ calculateFine tag = 500)
  ∨ (tag = "Car" ∧ calculateFine tag = 1000)
  ∨ (tag = "Van" ∧ calculateFine tag = 1500)
  ∨ (tag = "Bus" ∧ calculateFine tag = 2000)
  ∨ (tag = "Truck" ∧ calculateFine tag = 2500).
Proof.
  cbv zeta. pose proof (classify_in_tags d) as H.
  generalize dependent (classifyVehicleType d). intros tag H.
  unfold vehicleTags in H.
  repeat (apply elem_of_cons in H as [->|H]; [by auto 10|]).
  by apply elem_of_nil in H.
Qed.

Lemma processVehicleFrame_created recognize image location camera now st result st' :
  processVehicleFrame recognize image location camera now st = (Some result, st') →
  ∃ plate,
    detectNumberPlate recognize image = Some plate
    ∧ challans st !! res_id result = None
    ∧ online st' = online st
    ∧ challans st'
      = <[res_id result :=
            detectedChallan plate (res_vehicleType result) location now
              (calculateFine (res_vehicleType result)) (res_dimensions result)]>
          (challans st)
    ∧ res_dimensions result
      = calculateVehicleDimensions
          {| box_width := img_width image; box_height := img_height image |} camera
    ∧ res_vehicleType result = classifyVehicleType (res_dimensions result).
Proof.
  unfold processVehicleFrame.
  destruct (detectNumberPlate recognize image) as [[|c plate]|] eqn:E; try done.
  destruct (addDoc _ st) as [[id|e] st''] eqn:Ha; [|done].
  intros [= <- <-]. cbn. apply addDoc_Ok in Ha as (Hn & Hc & Ho).
  exists (c :: plate). by repeat split.
Qed.

(** C3, as the code has it.  A frame whose plate is matched, processed while
    the store is reachable, creates one challan under a new identifier and
    changes no other; and every challan the detection path creates has the
    violation type fixed to the no-entry-zone violation, the status pending,
    the matched plate as vehicle number, and as amount the entry of the
    path's own table for its vehicle type (Motorcycle 500, Car 1000, Van
    1500, Bus 2000, Truck 2500), whatever the lookup tables of the fine
    calculator hold. *)
Theorem detected_challan_uses_own_fine_table :
  (∀ recognize image location camera now st plate,
      detectNumberPlate recognize image = Some plate →
      online st = true →
      ∃ result st',
        processVehicleFrame recognize image location camera now st
        = (Some result, st')
        ∧ res_vehicleNumber result = plate
        ∧ ∀ j, j ≠ res_id result → challans st' !! j = challans st !! j)
  ∧ (∀ recognize image location camera now st result st',
      processVehicleFrame recognize image location camera now st
      = (Some result, st') →
      challans st !! res_id result = None
      ∧ ∃ doc,
          challans st' !! res_id result = Some doc
          ∧ violationType doc = "No-Entry Zone Violation"
          ∧ status doc = pending
          ∧ paidAt doc = None ∧ paymentMethod doc = None
          ∧ detectNumberPlate recognize image = Some (vehicleNumber doc)
          ∧ vehicleType doc
            = classifyVehicleType
                (calculateVehicleDimensions
                   {| box_width := img_width image; box_height := img_height image |}
                   camera)
          ∧ amount doc = calculateFine (vehicleType doc)
          ∧ amount doc = res_fineAmount result
          ∧ ((vehicleType doc = "Motorcycle" ∧ amount doc = 500)
             ∨ (vehicleType doc = "Car" ∧ amount doc = 1000)
             ∨ (vehicleType doc = "Van" ∧ amount doc = 1500)
             ∨ (vehicleType doc = "Bus" ∧ amount doc = 2000)
             ∨ (vehicleType doc = "Truck" ∧ amount doc = 2500))).
Proof.
  split.
  - intros recognize image location camera now st plate Hp Ho.
    pose proof (plateShape_length _ (detectNumberPlate_plate _ _ _ Hp)) as Hlen.
    unfold processVehicleFrame. rewrite Hp.
    destruct plate as [|c plate]; [cbn in Hlen; lia|].
    rewrite addDoc_online by done. do 2 eexists. split; [done|].
    split; [done|]. cbn. intros j Hj. by rewrite lookup_insert_ne.
  - intros recognize image location camera now st result st' H.
    pose proof H as H'. unfold processVehicleFrame in H'.
    destruct (detectNumberPlate recognize image) as [[|c plate]|]; try done.
    destruct (addDoc _ st) as [[id|e] st''] eqn:Ha; [|done].
    injection H' as <- <-. cbn [res_id res_fineAmount].
    apply addDoc_Ok in Ha as (Hn & Hc & Ho).
    split; [done|]. eexists. rewrite Hc, lookup_insert_eq.
    split; [done|]. cbn. repeat split.
    apply calculateFine_of_tag.
Qed.

Lemma detected_challan_uses_own_fine_table_witness :
  ∃ result st',
    processVehicleFrame Samples.readsPlate Samples.crop "One-Way Street"
      Samples.sessionCamera 0 emptyStore = (Some result, st')
    ∧ res_vehicleNumber result = Js.codes "AB12CD3456".
Proof.
  destruct (proj1 detected_challan_uses_own_fine_table
              Samples.readsPlate Samples.crop "One-Way Street"
              Samples.sessionCamera 0%Z emptyStore (Js.codes "AB12CD3456"))
    as (result & st' & H1 & H2 & _); [reflexivity|reflexivity|].
  exists result, st'. by split.
Defined.

(** C3, as the claim has it, fails: with a violation amount of 1000 and a
    Truck base amount of 2000 the additive lookup gives 3000, and the
    challan the detection path creates for a Truck carries 2500. *)
Lemma detected_amount_is_not_the_additive_lookup :
  let out :=
    processVehicleFrame Samples.readsPlate Samples.crop "One-Way Street"
      Samples.sessionCamera 0 emptyStore in
  res_id <$> out.1 = Some "0"
  ∧ violationType <$> challans out.2 !! "0" = Some "No-Entry Zone Violation"
  ∧ vehicleType <$> challans out.2 !! "0" = Some "Truck"
  ∧ amount <$> challans out.2 !! "0" = Some 2500
  ∧ ChallanUtils.getChallanAmount Samples.violationTable Samples.vehicleTable
      "No-Entry Zone Violation" "Truck" = Some 3000
  ∧ (2500 =? 3000) = false.
Proof. cbv zeta. repeat split; reflexivity. Qed.

End AutomaticPath.

(** ** The statistics aggregator *)

Section Aggregator.
Import Firestore AdminDashboard History.

Lemma paidCount_cons d docs :
  paidCount (d :: docs) = ((if isPaid d then 1 else 0) + paidCount docs)%nat.
Proof.
  unfold paidCount. rewrite filter_cons.
  destruct (isPaid d); [rewrite decide_True by done|rewrite decide_False by done];
    done.
Qed.

Lemma paidCount_le docs : (paidCount docs ≤ length docs)%nat.
Proof. apply length_filter. Qed.

Lemma paidCount_perm docs1 docs2 : docs1 ≡ₚ docs2 → paidCount docs1 = paidCount docs2.
Proof. intros H. unfold paidCount. by rewrite H. Qed.

(** One full scan: what the fold adds to the statistics it starts from. *)
Lemma fold_tally docs stats :
  let result := fold_left tally docs stats in
  totalChallans result = (totalChallans stats + Z.of_nat (length docs))%Z
  ∧ paidChallans result = (paidChallans stats + Z.of_nat (paidCount docs))%Z
  ∧ pendingChallans result
    = (pendingChallans stats + (Z.of_nat (length docs) - Z.of_nat (paidCount docs)))%Z
  ∧ totalRevenue result
    = fold_left (λ acc d, acc + amount d) (filter (λ d, isPaid d = true) docs)
        (totalRevenue stats).
Proof.
  revert stats. induction docs as [|d docs IH]; intros stats; cbv zeta.
  - cbn. repeat split; lia.
  - cbn [fold_left]. destruct (IH (tally stats d)) as (Ht & Hp & Hq & Hr).
    rewrite Ht, Hp, Hq, Hr, paidCount_cons, filter_cons. unfold tally.
    cbn [totalChallans paidChallans pendingChallans totalRevenue length].
    destruct (isPaid d);
      [rewrite decide_True by done|rewrite decide_False by done];
      repeat split; cbn [fold_left]; try lia; done.
Qed.

Lemma run_step {A} (out : Outcome A * Store) (a : A) :
  out.1 = Ok a → out = (Ok a, out.2).
Proof. destruct out as [o st]. by intros [= ->]. Qed.

(** The snapshot after a document is added under a new identifier. *)
Lemma snapshot_insert_new st id data m :
  challans st !! id = None →
  m = <[id := data]> (challans st) →
  ∀ st', challans st' = m → snapshot st' ≡ₚ data :: snapshot st.
Proof.
  intros Hn -> st' Hc. unfold snapshot. rewrite Hc.
  by rewrite map_to_list_insert.
Qed.

(** The snapshot after an existing document is overwritten. *)
Lemma snapshot_overwrite st id d d' st' :
  challans st !! id = Some d →
  challans st' = <[id := d']> (challans st) →
  ∃ others, snapshot st ≡ₚ d :: others ∧ snapshot st' ≡ₚ d' :: others.
Proof.
  intros Hd Hc. exists (map_to_list (delete id (challans st))).*2.
  unfold snapshot. split.
  - by rewrite <- (map_to_list_delete _ _ _ Hd).
  - rewrite Hc, <- insert_delete_eq.
    by rewrite map_to_list_insert by apply lookup_delete_eq.
Qed.

Lemma updateDoc_Ok id fields st st' :
  updateDoc id fields st = (Ok tt, st') →
  ∃ d, challans st !! id = Some d
       ∧ challans st' = <[id := fields d]> (challans st).
Proof.
  unfold updateDoc. destruct (online st); [|done].
  destruct (challans st !! id) as [d|]; [|done].
  intros [= <-]. by exists d.
Qed.

(** In a disciplined history the collection holds as many challans as were
    created and as many paid ones as payments were made. *)
Lemma produced_counts st n m :
  produced true st n m →
  length (snapshot st) = n ∧ paidCount (snapshot st) = m.
Proof.
  induction 1 as [|st n m b _ IH|st n m data now id st' _ IH Hs Hc
                  |st n m recognize image location camera now result st' _ IH Hp
                  |st n m id now st' _ IH Hd Hp
                  |st n m loaded method id now st' _ IH Hd Hp].
  - done.
  - done.
  - destruct IH as [IHn IHm].
    apply addDoc_Ok in Hc as (Hn & Hc & _).
    pose proof (snapshot_insert_new st id _ _ Hn eq_refl st' Hc) as Hperm.
    rewrite (Permutation_length Hperm), (paidCount_perm _ _ Hperm), paidCount_cons.
    unfold isPaid. cbn. rewrite (Hs eq_refl). cbn. by rewrite IHn, IHm.
  - destruct IH as [IHn IHm].
    apply processVehicleFrame_created in Hp as (plate & _ & Hn & _ & Hc & _).
    pose proof (snapshot_insert_new st _ _ _ Hn eq_refl st' Hc) as Hperm.
    rewrite (Permutation_length Hperm), (paidCount_perm _ _ Hperm), paidCount_cons.
    cbn. by rewrite IHn, IHm.
  - destruct IH as [IHn IHm]. destruct (Hd eq_refl) as (d & Hl & Hpend).
    apply updateDoc_Ok in Hp as (d0 & Hl0 & Hc).
    rewrite Hl in Hl0. injection Hl0 as <-.
    destruct (snapshot_overwrite _ _ _ _ _ Hl Hc) as (others & H1 & H2).
    rewrite (Permutation_length H1), (paidCount_perm _ _ H1), paidCount_cons in *.
    rewrite (Permutation_length H2), (paidCount_perm _ _ H2), paidCount_cons.
    unfold isPaid in *. rewrite Hpend in *. cbn in *. lia.
  - destruct IH as [IHn IHm]. destruct (Hd eq_refl) as (d & Hl & Hpend).
    unfold ChallanPayment.handlePayment in Hp.
    destruct loaded, method; try done.
    destruct (updateDoc _ _ _) as [[[]|e] st''] eqn:Hu; simplify_eq.
    apply updateDoc_Ok in Hu as (target & Hl0 & Hc).
    rewrite Hl in Hl0. injection Hl0 as <-.
    destruct (snapshot_overwrite _ _ _ _ _ Hl Hc) as (others & H1 & H2).
    rewrite (Permutation_length H1), (paidCount_perm _ _ H1), paidCount_cons in *.
    rewrite (Permutation_length H2), (paidCount_perm _ _ H2), paidCount_cons.
    unfold isPaid in *. rewrite Hpend in *. cbn in *. lia.
Qed.

(** C4, as the code has it.  After a history of [n] create operations, each
    storing a pending challan, and [m] payment operations, each applied to a
    challan that is pending at that moment, the statistics the callback
    computes from the snapshot and from initial statistics whose counters
    are zero are: [n] challans in total, [m] paid, [n - m] pending, and as
    revenue the sum of the amounts of the paid challans in snapshot order;
    [m] is at most [n].  The callback scans the whole snapshot and its
    result does not depend on the statistics shown before. *)
Theorem statistics_of_disciplined_history initial st n m :
  startsFromZero initial →
  produced true st n m →
  let stats := computeStatistics initial (snapshot st) in
  totalChallans stats = Z.of_nat n
  ∧ paidChallans stats = Z.of_nat m
  ∧ pendingChallans stats = (Z.of_nat n - Z.of_nat m)%Z
  ∧ totalRevenue stats = paidRevenue (snapshot st)
  ∧ (m ≤ n)%nat
  ∧ ∀ previous, onSnapshot initial previous (snapshot st) = stats.
Proof.
  intros (H0t & H0q & H0p & H0r) H. cbv zeta.
  destruct (produced_counts _ _ _ H) as [Hn Hm].
  destruct (fold_tally (snapshot st) initial) as (Ht & Hp & Hq & Hr).
  unfold computeStatistics. rewrite Ht, Hp, Hq, Hr, H0t, H0q, H0p, H0r, Hn, Hm.
  repeat split; try lia.
  rewrite <- Hn, <- Hm. apply paidCount_le.
Qed.

Lemma statistics_of_disciplined_history_witness :
  totalChallans (computeStatistics Samples.zeroStatistics (snapshot Samples.paidOnce))
  = 2%Z
  ∧ paidChallans (computeStatistics Samples.zeroStatistics (snapshot Samples.paidOnce))
    = 1%Z.
Proof.
  assert (produced true Samples.paidOnce 2 1) as H.
  { eapply produced_pay with (id := "0") (now := 20%Z) (st := Samples.twoCreated).
    - eapply produced_create with (data := Samples.pendingChallan) (now := 10%Z)
        (id := "1")
        (st := (ChallanUtils.createChallan Samples.pendingChallan 5 emptyStore).2).
      + eapply produced_create with (data := Samples.pendingChallan) (now := 5%Z)
          (id := "0") (st := emptyStore).
        * apply produced_empty.
        * reflexivity.
        * apply run_step. reflexivity.
      + reflexivity.
      + apply run_step. reflexivity.
    - intros _. eexists. split; reflexivity.
    - apply run_step. reflexivity. }
  destruct (statistics_of_disciplined_history Samples.zeroStatistics
              Samples.paidOnce 2 1) as (Ht & Hp & _).
  - repeat split.
  - exact H.
  - split; [exact Ht|exact Hp].
Defined.

(** C4, as the claim has it, fails: two challans are created and two payment
    operations succeed, both on the first challan; the claim gives two paid
    and none pending, the statistics show one paid and one pending. *)
Lemma repeated_payment_counts_once :
  produced false Samples.paidTwice 2 2
  ∧ paidChallans
      (computeStatistics Samples.zeroStatistics (snapshot Samples.paidTwice)) = 1%Z
  ∧ pendingChallans
      (computeStatistics Samples.zeroStatistics (snapshot Samples.paidTwice)) = 1%Z.
Proof.
  split; [|split; reflexivity].
  eapply produced_pay with (id := "0") (now := 30%Z) (st := Samples.paidOnce).
  - eapply produced_pay with (id := "0") (now := 20%Z) (st := Samples.twoCreated).
    + eapply produced_create with (data := Samples.pendingChallan) (now := 10%Z)
        (id := "1")
        (st := (ChallanUtils.createChallan Samples.pendingChallan 5 emptyStore).2).
      * eapply produced_create with (data := Samples.pendingChallan) (now := 5%Z)
          (id := "0") (st := emptyStore).
        -- apply produced_empty.
        -- reflexivity.
        -- apply run_step. reflexivity.
      * reflexivity.
      * apply run_step. reflexivity.
    + discriminate.
    + apply run_step. reflexivity.
  - discriminate.
  - apply run_step. reflexivity.
Qed.

End Aggregator.

(** ** Doubling in binary64 arithmetic *)

Section Rounding.
Import Binary64.
#[local] Open Scope Z_scope.

#[local] Abbreviation bra := (binary_round_aux prec emax).
#[local] Abbreviation emin := (SpecFloat.emin prec emax).

Lemma Zdigits2_nonneg z : 0 <= Zdigits2 z.
Proof. destruct z; cbn; lia. Qed.

Lemma fexp_max t : fexp prec emax t = Z.max (t - prec) emin.
Proof. reflexivity. Qed.

Lemma fexp_normal t : emin <= t - prec -> fexp prec emax t = t - prec.
Proof. intros H. rewrite fexp_max. lia. Qed.

(** Raising the exponent of the value to round by one doubles the result,
    as long as the value is far from the subnormal range. *)
Lemma bra_shift s M E l :
  emin + prec <= Zdigits2 M + E - prec ->
  bra s M (E + 1) l = dbl (bra s M E l).
Proof.
  intros H. unfold binary_round_aux, shr_fexp.
  rewrite (fexp_normal (Zdigits2 M + (E + 1))) by (unfold prec in *; lia).
  rewrite (fexp_normal (Zdigits2 M + E)) by (unfold prec in *; lia).
  replace (Zdigits2 M + (E + 1) - prec - (E + 1)) with (Zdigits2 M - prec) by lia.
  replace (Zdigits2 M + E - prec - E) with (Zdigits2 M - prec) by lia.
  set (r0 := shr_record_of_loc M l).
  assert (exists mrs e1, shr r0 E (Zdigits2 M - prec) = (mrs, e1)
                         /\ shr r0 (E + 1) (Zdigits2 M - prec) = (mrs, e1 + 1)
                         /\ Zdigits2 M + E - prec <= e1) as (mrs & e1 & -> & -> & He1).
  { unfold shr. destruct (Zdigits2 M - prec) eqn:En.
    - exists r0, E. repeat split; lia.
    - eexists _, _. split; [reflexivity|]. split; [f_equal; lia|lia].
    - exists r0, E. repeat split; lia. }
  set (m2 := round_nearest_even (shr_m mrs) (loc_of_shr_record mrs)).
  pose proof (Zdigits2_nonneg m2) as Hm2.
  rewrite (fexp_normal (Zdigits2 m2 + (e1 + 1))) by (unfold prec in *; lia).
  rewrite (fexp_normal (Zdigits2 m2 + e1)) by (unfold prec in *; lia).
  replace (Zdigits2 m2 + (e1 + 1) - prec - (e1 + 1)) with (Zdigits2 m2 - prec) by lia.
  replace (Zdigits2 m2 + e1 - prec - e1) with (Zdigits2 m2 - prec) by lia.
  set (r2 := shr_record_of_loc m2 loc_Exact).
  assert (exists mrs' e2, shr r2 e1 (Zdigits2 m2 - prec) = (mrs', e2)
                          /\ shr r2 (e1 + 1) (Zdigits2 m2 - prec) = (mrs', e2 + 1))
    as (mrs' & e2 & -> & ->).
  { unfold shr. destruct (Zdigits2 m2 - prec) eqn:En.
    - by exists r2, e1.
    - eexists _, _. split; [reflexivity|]. f_equal; lia.
    - by exists r2, e1. }
  destruct (shr_m mrs') as [|m|m]; [done| |done].
  unfold dbl.
  destruct (Z.leb_spec (e2 + 1) (emax - prec)), (Z.leb_spec e2 (emax - prec));
    try done; try lia.
  all: destruct (Z.leb_spec (e2 + 1) (emax - prec)); try done; lia.
Qed.

Lemma Prim2SF_two : Prim2SF 2 = Two.
Proof. reflexivity. Qed.

Lemma shr_52 m :
  SpecFloat.iter_pos shr_1 52
    {| shr_m := Z.pos (Pos.iter xO m 52); shr_r := false; shr_s := false |}
  = {| shr_m := Z.pos m; shr_r := false; shr_s := false |}.
Proof. reflexivity. Qed.

Lemma digits_shl_52 m :
  Zdigits2 (Z.pos (Pos.iter xO m 52)) = Z.pos (digits2_pos m) + 52.
Proof. cbn. lia. Qed.

(** Multiplying a normal number by two raises its exponent by one. *)
Lemma SFmul_two s m e :
  Zpos (digits2_pos m) = prec ->
  emin <= e ->
  SF64mul Two (S754_finite s m e) = dbl (S754_finite s m e).
Proof.
  intros Hd He. unfold SF64mul, SFmul, Two.
  change (xorb false s) with s.
  change (4503599627370496 * m)%positive with (Pos.iter xO m 52).
  unfold binary_round_aux, shr_fexp.
  rewrite digits_shl_52, Hd.
  rewrite (fexp_normal (prec + 52 + (-51 + e)))
    by (unfold prec, SpecFloat.emin, emax in *; lia).
  replace (prec + 52 + (-51 + e) - prec - (-51 + e)) with 52 by (unfold prec; lia).
  cbn [shr shr_record_of_loc]. rewrite shr_52.
  cbn [shr_m loc_of_shr_record round_nearest_even Zdigits2].
  rewrite Hd.
  rewrite (fexp_normal (prec + (-51 + e + 52)))
    by (unfold prec, SpecFloat.emin, emax in *; lia).
  replace (prec + (-51 + e + 52) - prec - (-51 + e + 52)) with 0 by lia.
  cbn [shr shr_m]. unfold dbl.
  replace (-51 + e + 52) with (e + 1) by lia. done.
Qed.

(** *** Exponent bounds of a rounded value *)

Lemma shr_snd mrs e n : (shr mrs e n).2 = e + Z.max n 0.
Proof. destruct n; cbn; lia. Qed.

Lemma digits2_pos_size p : digits2_pos p = Pos.size p.
Proof. induction p; cbn; congruence. Qed.

Lemma Zdigits2_log2 p : Zdigits2 (Z.pos p) = Z.log2 (Z.pos p) + 1.
Proof.
  destruct p; cbn; rewrite ?digits2_pos_size; lia.
Qed.

Lemma Zdigits2_succ m : 0 <= m -> Zdigits2 (m + 1) <= Zdigits2 m + 1.
Proof.
  intros Hm. destruct m as [|p|p]; [by vm_compute| |lia].
  change (Z.pos p + 1) with (Z.pos (p + 1)). rewrite !Zdigits2_log2.
  replace (Z.pos (p + 1)) with (Z.succ (Z.pos p)) by lia.
  pose proof (Z.log2_succ_le (Z.pos p)). lia.
Qed.

Lemma Zdigits2_mul a b :
  Zdigits2 (Z.pos (a * b)) <= Zdigits2 (Z.pos a) + Zdigits2 (Z.pos b).
Proof.
  rewrite !Zdigits2_log2, Pos2Z.inj_mul.
  pose proof (Z.log2_mul_above (Z.pos a) (Z.pos b)). lia.
Qed.

Lemma shr_1_digits mrs :
  0 <= shr_m mrs ->
  0 <= shr_m (shr_1 mrs) /\ Zdigits2 (shr_m (shr_1 mrs)) <= Zdigits2 (shr_m mrs).
Proof.
  destruct mrs as [m r s]. cbn [shr_m]. intros Hm.
  destruct m as [|[p|p|]|p]; cbn; lia.
Qed.

Lemma iter_pos_invariant {A} (P : A -> Prop) (f : A -> A) :
  (forall x, P x -> P (f x)) -> forall p x, P x -> P (SpecFloat.iter_pos f p x).
Proof.
  intros Hf. induction p as [p IH|p IH|]; intros x Hx; cbn; auto.
Qed.

Lemma shr_digits mrs e n D :
  0 <= shr_m mrs -> Zdigits2 (shr_m mrs) <= D ->
  0 <= shr_m (shr mrs e n).1 /\ Zdigits2 (shr_m (shr mrs e n).1) <= D.
Proof.
  intros Hm Hd. destruct n as [|p|p]; cbn [shr fst]; [done| |done].
  apply (iter_pos_invariant (fun r => 0 <= shr_m r /\ Zdigits2 (shr_m r) <= D));
    [|done].
  intros r [Hr1 Hr2]. destruct (shr_1_digits r Hr1). lia.
Qed.

Lemma shr_m_of_loc m l : shr_m (shr_record_of_loc m l) = m.
Proof. by destruct l as [|[]]. Qed.

Lemma round_digits m l :
  0 <= m ->
  0 <= round_nearest_even m l
  /\ Zdigits2 (round_nearest_even m l) <= Zdigits2 m + 1.
Proof.
  intros Hm. pose proof (Zdigits2_succ m Hm).
  unfold round_nearest_even. destruct l as [|[]]; try destruct (Z.even m); lia.
Qed.

(** Rounding never lowers the exponent. *)
Lemma bra_exp_lower s M E l s' m' e' :
  bra s M E l = S754_finite s' m' e' -> E <= e'.
Proof.
  unfold binary_round_aux, shr_fexp. intros H.
  pose proof (shr_snd (shr_record_of_loc M l) E
                (fexp prec emax (Zdigits2 M + E) - E)) as He1.
  destruct (shr (shr_record_of_loc M l) E _) as [mrs e1]. cbn [fst snd] in *.
  set (m2 := round_nearest_even (shr_m mrs) (loc_of_shr_record mrs)) in *.
  pose proof (shr_snd (shr_record_of_loc m2 loc_Exact) e1
                (fexp prec emax (Zdigits2 m2 + e1) - e1)) as He2.
  destruct (shr (shr_record_of_loc m2 loc_Exact) e1 _) as [mrs' e2].
  cbn [fst snd] in *.
  destruct (shr_m mrs'); [done| |done].
  destruct (e2 <=? emax - prec); [|done].
  injection H as <- <- <-. lia.
Qed.

(** The exponent of a finite rounded value lies between the exponent it was
    given with and that exponent raised by the digits the mantissa had beyond
    the precision. *)
Lemma bra_exp_bounds s M E l s' m' e' :
  bra s M E l = S754_finite s' m' e' ->
  0 <= M ->
  E <= e'
  /\ e' <= Z.max (Z.max (Zdigits2 M + E - prec) emin) E
           + Z.max (Zdigits2 M + 1 - prec) 0.
Proof.
  unfold binary_round_aux, shr_fexp. intros H HM.
  pose proof (shr_snd (shr_record_of_loc M l) E
                (fexp prec emax (Zdigits2 M + E) - E)) as He1.
  pose proof (shr_digits (shr_record_of_loc M l) E
                (fexp prec emax (Zdigits2 M + E) - E) (Zdigits2 M)) as Hd1.
  rewrite shr_m_of_loc in Hd1. specialize (Hd1 HM (Z.le_refl _)).
  destruct (shr (shr_record_of_loc M l) E _) as [mrs e1]. cbn [fst snd] in *.
  destruct Hd1 as [Hm1 Hd1].
  pose proof (round_digits (shr_m mrs) (loc_of_shr_record mrs) Hm1) as [Hm2 Hd2].
  set (m2 := round_nearest_even (shr_m mrs) (loc_of_shr_record mrs)) in *.
  pose proof (shr_snd (shr_record_of_loc m2 loc_Exact) e1
                (fexp prec emax (Zdigits2 m2 + e1) - e1)) as He2.
  destruct (shr (shr_record_of_loc m2 loc_Exact) e1 _) as [mrs' e2].
  cbn [fst snd] in *.
  destruct (shr_m mrs'); [done| |done].
  destruct (e2 <=? emax - prec); [|done].
  injection H as <- <- <-.
  rewrite fexp_max in He1, He2. lia.
Qed.

Lemma valid_normal s m e :
  valid_binary (S754_finite s m e) = true ->
  emin < e ->
  Z.pos (digits2_pos m) = prec.
Proof.
  unfold SpecFloat.valid_binary, bounded, canonical_mantissa. rewrite fexp_max.
  intros H He. apply andb_prop in H as [H _]. apply Z.eqb_eq in H. lia.
Qed.

(** *** Division *)

Lemma SFdiv_core_exp m1 e1 m2 e2 :
  (SFdiv_core_binary prec emax m1 e1 m2 e2).1.2
  = Z.min (fexp prec emax (Zdigits2 m1 + e1 - (Zdigits2 m2 + e2))) (e1 - e2).
Proof.
  unfold SFdiv_core_binary. cbv zeta. by destruct (Z.div_eucl _ m2).
Qed.

(** Raising the exponent of the dividend by one raises the exponent of the
    quotient by one and changes neither its digits nor the remainder. *)
Lemma SFdiv_core_shift m1 e1 m2 e2 :
  emin <= Zdigits2 m1 + e1 - (Zdigits2 m2 + e2) - prec ->
  SFdiv_core_binary prec emax m1 (e1 + 1) m2 e2
  = let '(q, e', l) := SFdiv_core_binary prec emax m1 e1 m2 e2 in (q, e' + 1, l).
Proof.
  intros H. unfold SFdiv_core_binary. cbv zeta.
  change IntDef.Z.min with Z.min. change IntDef.Z.sub with Z.sub.
  change IntDef.Z.add with Z.add.
  rewrite (fexp_normal (Zdigits2 m1 + (e1 + 1) - (Zdigits2 m2 + e2))) by lia.
  rewrite (fexp_normal (Zdigits2 m1 + e1 - (Zdigits2 m2 + e2))) by lia.
  set (t := Zdigits2 m1 + e1 - (Zdigits2 m2 + e2)).
  replace (Z.min (Zdigits2 m1 + (e1 + 1) - (Zdigits2 m2 + e2) - prec) (e1 + 1 - e2))
    with (Z.min (t - prec) (e1 - e2) + 1) by lia.
  replace (e1 + 1 - e2 - (Z.min (t - prec) (e1 - e2) + 1))
    with (e1 - e2 - Z.min (t - prec) (e1 - e2)) by lia.
  by destruct (Z.div_eucl _ m2).
Qed.

(** *** Numbers of moderate magnitude *)

Lemma SFleb_finite_exp m1 e1 m2 e2 :
  SFleb (S754_finite false m1 e1) (S754_finite false m2 e2) = true -> e1 <= e2.
Proof.
  unfold SFleb, SFcompare. destruct (Z.compare_spec e1 e2); [lia|lia|done].
Qed.

Lemma moderate_finite v :
  moderate v = true ->
  exists s m e, Prim2SF v = S754_finite s m e
                /\ Z.pos (digits2_pos m) = prec /\ -308 <= e <= 204.
Proof.
  unfold moderate. intros H. apply andb_prop in H as [Hlo Hhi].
  rewrite leb_spec, abs_spec in Hlo, Hhi.
  change (Prim2SF 0x1p-256%float)
    with (S754_finite false 4503599627370496 (-308)) in Hlo.
  change (Prim2SF 0x1p256%float)
    with (S754_finite false 4503599627370496 204) in Hhi.
  pose proof (Prim2SF_valid v) as Hv.
  destruct (Prim2SF v) as [s|s| |s m e]; try discriminate.
  cbn [SFabs] in *. apply SFleb_finite_exp in Hlo, Hhi.
  exists s, m, e. split; [done|]. split; [|lia].
  apply (valid_normal s m e Hv). unfold SpecFloat.emin, emax, prec. lia.
Qed.

Lemma dbl_finite s m e :
  e + 1 <= emax - prec -> dbl (S754_finite s m e) = S754_finite s m (e + 1).
Proof. intros H. unfold dbl. by rewrite (proj2 (Z.leb_le _ _) H). Qed.

(** Doubling a valid value that is not subnormal is multiplying it by two. *)
Lemma SFmul_two_valid v :
  valid_binary v = true ->
  (forall s m e, v = S754_finite s m e -> emin < e) ->
  SF64mul Two v = dbl v.
Proof.
  intros Hv He. destruct v as [s|s| |s m e]; try done.
  specialize (He s m e eq_refl).
  apply SFmul_two; [by apply (valid_normal s m e)|lia].
Qed.

(** *** Doubling the first factor of a product that is then divided *)

Lemma doubling_commutes sw mw ew sd md ed sf mf ef :
  Z.pos (digits2_pos mw) = prec -> -308 <= ew <= 204 ->
  Z.pos (digits2_pos md) = prec -> -308 <= ed <= 204 ->
  Z.pos (digits2_pos mf) = prec -> -308 <= ef <= 204 ->
  let W := S754_finite sw mw ew in
  let D := S754_finite sd md ed in
  let F := S754_finite sf mf ef in
  valid_binary (SF64mul W D) = true ->
  valid_binary (SF64div (SF64mul W D) F) = true ->
  SF64div (SF64mul (SF64mul Two W) D) F = SF64mul Two (SF64div (SF64mul W D) F).
Proof.
  intros Hmw Hew Hmd Hed Hmf Hef W D F HvX HvR.
  assert (emin = -1074 /\ prec = 53 /\ emax = 1024) as (Hemin & Hprec & Hemax) by done.
  (* the doubled first factor *)
  unfold W at 1. rewrite SFmul_two by (try done; lia).
  rewrite dbl_finite by lia.
  (* the product *)
  assert (SF64mul (S754_finite sw mw (ew + 1)) D = dbl (SF64mul W D)) as ->.
  { unfold SF64mul, SFmul, W, D.
    replace (ew + 1 + ed) with (ew + ed + 1) by lia.
    apply bra_shift. pose proof (Zdigits2_nonneg (Z.pos (mw * md))). lia. }
  assert (forall s m e, SF64mul W D = S754_finite s m e -> -616 <= e <= 515) as HeX.
  { intros s m e H. unfold SF64mul, SFmul, W, D in H.
    apply bra_exp_bounds in H as [H1 H2]; [|lia].
    pose proof (Zdigits2_mul mw md) as Hmul. cbn [Zdigits2] in *. lia. }
  destruct (SF64mul W D) as [sx|sx| |sx mx ex] eqn:EX;
    [by destruct sx, sf|by destruct sx, sf|done|].
  specialize (HeX sx mx ex eq_refl).
  assert (Z.pos (digits2_pos mx) = prec) as Hmx
    by (apply (valid_normal sx mx ex HvX); lia).
  rewrite dbl_finite by lia.
  (* the quotient *)
  unfold SF64div, SFdiv in *. unfold F in *.
  rewrite SFdiv_core_shift by (cbn [Zdigits2]; lia).
  pose proof (SFdiv_core_exp (Z.pos mx) ex (Z.pos mf) ef) as He'.
  destruct (SFdiv_core_binary prec emax (Z.pos mx) ex (Z.pos mf) ef)
    as [[q e'] l].
  cbn [fst snd Zdigits2] in He'.
  rewrite fexp_normal in He' by lia.
  rewrite bra_shift by (pose proof (Zdigits2_nonneg q); lia).
  symmetry. apply SFmul_two_valid; [done|].
  intros s m e H. apply bra_exp_lower in H. lia.
Qed.

(** On primitive floats: doubling the first factor doubles the quotient. *)
Lemma doubled_quotient (w d f : float) :
  moderate w = true -> moderate d = true -> moderate f = true ->
  ((2 * w) * d / f = 2 * (w * d / f))%float.
Proof.
  intros Hw Hd Hf.
  apply moderate_finite in Hw as (sw & mw & ew & HW & Hmw & Hew).
  apply moderate_finite in Hd as (sd & md & ed & HD & Hmd & Hed).
  apply moderate_finite in Hf as (sf & mf & ef & HF & Hmf & Hef).
  pose proof (Prim2SF_valid (w * d)) as HvX.
  pose proof (Prim2SF_valid (w * d / f)) as HvR.
  rewrite div_spec, mul_spec, HW, HD, HF in HvR. rewrite mul_spec, HW, HD in HvX.
  apply Prim2SF_inj.
  rewrite div_spec, !mul_spec, div_spec, mul_spec, Prim2SF_two, HW, HD, HF.
  by apply doubling_commutes.
Qed.
End Rounding.

(** ** The dimension estimator *)

Section DimensionEstimator.
Import VehicleDetection Binary64.

(** C8, as the code has it.  The estimator computes, in binary64 arithmetic,
    the width as pixel width times distance over focal length, the height as
    pixel height times distance over focal length, and the length as 2.5
    times the width.  Doubling the pixel width with the camera parameters
    held fixed exactly doubles the width whenever pixel width, distance and
    focal length are finite with magnitudes between [2^-256] and [2^256], a
    range in which no intermediate result overflows or becomes subnormal. *)
Theorem estimator_formula_and_scaling :
  (∀ boundingBox cameraParams,
      calculateVehicleDimensions boundingBox cameraParams
      = {| dim_width :=
             box_width boundingBox * distance cameraParams / focalLength cameraParams;
           dim_height :=
             box_height boundingBox * distance cameraParams / focalLength cameraParams;
           dim_length :=
             box_width boundingBox * distance cameraParams / focalLength cameraParams
             * 2.5 |})
  ∧ (∀ boundingBox cameraParams,
      moderate (box_width boundingBox) = true →
      moderate (distance cameraParams) = true →
      moderate (focalLength cameraParams) = true →
      dim_width (calculateVehicleDimensions (doubleWidth boundingBox) cameraParams)
      = 2 * dim_width (calculateVehicleDimensions boundingBox cameraParams)).
Proof.
  split; [done|].
  intros boundingBox cameraParams Hw Hd Hf.
  unfold calculateVehicleDimensions, doubleWidth. cbn [dim_width box_width].
  by apply doubled_quotient.
Qed.

Lemma estimator_formula_and_scaling_witness :
  dim_width (calculateVehicleDimensions
               (doubleWidth (mkBoundingBox 200 100)) Samples.sessionCamera)
  = 2 * dim_width (calculateVehicleDimensions
                     (mkBoundingBox 200 100) Samples.sessionCamera).
Proof.
  apply (proj2 estimator_formula_and_scaling); reflexivity.
Defined.

(** C8, as the claim has it, fails at both ends of the binary64 range.  With
    a pixel width of 3, the smallest positive distance and a focal length of
    2, the width is twice the smallest positive number, and for the doubled
    pixel width it is three times that number, not four.  With a pixel width
    of [1e308], a distance of 1 and a focal length of [1e300], the doubled
    pixel width is infinite and so is the width computed from it, while
    twice the original width is finite. *)
Lemma doubling_inexact_at_range_ends :
  (let box := mkBoundingBox 3 1 in
   let camera := mkCameraParams 2 23.5 0x1p-1074 in
   dim_width (calculateVehicleDimensions box camera) = 0x2p-1074
   ∧ dim_width (calculateVehicleDimensions (doubleWidth box) camera) = 0x3p-1074
   ∧ 2 * dim_width (calculateVehicleDimensions box camera) = 0x4p-1074
   ∧ dim_width (calculateVehicleDimensions (doubleWidth box) camera)
     ≠ 2 * dim_width (calculateVehicleDimensions box camera))
  ∧ (let box := mkBoundingBox 1e308 1 in
     let camera := mkCameraParams 1e300 23.5 1 in
     dim_width (calculateVehicleDimensions (doubleWidth box) camera) = infinity
     ∧ (2 * dim_width (calculateVehicleDimensions box camera) <? infinity) = true
     ∧ dim_width (calculateVehicleDimensions (doubleWidth box) camera)
       ≠ 2 * dim_width (calculateVehicleDimensions box camera)).
Proof.
  cbv zeta. repeat split; try reflexivity.
  - intros H. apply (f_equal Prim2SF) in H. vm_compute in H. discriminate.
  - intros H. apply (f_equal Prim2SF) in H. vm_compute in H. discriminate.
Qed.

End DimensionEstimator.

(** * Further properties *)

(** ** Comparisons of binary64 values *)

Section FloatOrder.
#[local] Open Scope Z_scope.

#[local] Ltac cmp_cases :=
  repeat match goal with
  | |- context [Z.compare ?a ?b] => destruct (Z.compare_spec a b)
  | H : context [Z.compare ?a ?b] |- _ => destruct (Z.compare_spec a b)
  | |- context [Pos.compare_cont Eq ?a ?b] =>
      change (Pos.compare_cont Eq a b) with (Pos.compare a b);
      destruct (Pos.compare_spec a b)
  | H : context [Pos.compare_cont Eq ?a ?b] |- _ =>
      change (Pos.compare_cont Eq a b) with (Pos.compare a b) in H;
      destruct (Pos.compare_spec a b)
  end.

Lemma SFleb_ltb_trans x y z :
  SFleb x y = true -> SFltb y z = true -> SFltb x z = true.
Proof.
  unfold SFleb, SFltb, SFcompare.
  destruct x as [[]|[]| |[] mx ex], y as [[]|[]| |[] my ey],
    z as [[]|[]| |[] mz ez]; try done;
    cmp_cases; cbn; try done; try lia.
Qed.

Lemma SFltb_leb_trans x y z :
  SFltb x y = true -> SFleb y z = true -> SFltb x z = true.
Proof.
  unfold SFleb, SFltb, SFcompare.
  destruct x as [[]|[]| |[] mx ex], y as [[]|[]| |[] my ey],
    z as [[]|[]| |[] mz ez]; try done;
    cmp_cases; cbn; try done; try lia.
Qed.

Lemma leb_ltb_trans (x y z : float) :
  (x <=? y)%float = true -> (y <? z)%float = true -> (x <? z)%float = true.
Proof. rewrite leb_spec, !ltb_spec. apply SFleb_ltb_trans. Qed.

Lemma ltb_leb_trans (x y z : float) :
  (x <? y)%float = true -> (y <=? z)%float = true -> (x <? z)%float = true.
Proof. rewrite leb_spec, !ltb_spec. apply SFltb_leb_trans. Qed.

End FloatOrder.

(** ** The classifier and the fine table, beyond the boundary cases *)

Section ClassifierOrder.
Import VehicleDetection NumberPlateDetection Ranking.

(** A guard that passes for the larger value passes for the smaller one. *)
Lemma below_threshold_mono (v v' c : float) :
  (v <=? v') = true → (v' <? c) = true → (v <? c) = true.
Proof. apply leb_ltb_trans. Qed.

Lemma classify_by_guards d :
  classifyVehicleType d
  = if (dim_width d <? 1.3) && (dim_length d <? 2.5) then "Motorcycle"
    else if (dim_width d <? 2.0) && (dim_height d <? 1.8) && (dim_length d <? 5.0)
    then "Car"
    else if (dim_width d <? 2.3) && (dim_height d <? 2.5) && (dim_length d <? 6.0)
    then "Van"
    else if (dim_width d <? 2.6) && (dim_height d <? 3.5) && (dim_length d <? 12.0)
    then "Bus"
    else "Truck".
Proof. reflexivity. Qed.

Lemma tagRank_values :
  tagRank "Motorcycle" = 0%nat ∧ tagRank "Car" = 1%nat ∧ tagRank "Van" = 2%nat
  ∧ tagRank "Bus" = 3%nat ∧ tagRank "Truck" = 4%nat.
Proof. repeat split; reflexivity. Qed.

Lemma classify_rank_mono d d' :
  dimLe d d' = true →
  (tagRank (classifyVehicleType d) ≤ tagRank (classifyVehicleType d'))%nat.
Proof.
  unfold dimLe. intros H.
  apply andb_prop in H as [H Hl]. apply andb_prop in H as [Hw Hh].
  pose proof (λ c, below_threshold_mono _ _ c Hw) as Mw.
  pose proof (λ c, below_threshold_mono _ _ c Hh) as Mh.
  pose proof (λ c, below_threshold_mono _ _ c Hl) as Ml.
  rewrite !classify_by_guards.
  assert (∀ a b a' b' : bool, (a' = true → a = true) → (b' = true → b = true) →
            a' && b' = true → a && b = true) as conj2.
  { intros [] [] [] []; naive_solver. }
  pose proof (conj2 _ _ _ _ (Mw 1.3) (Ml 2.5)) as G1.
  pose proof (conj2 _ _ _ _ (conj2 _ _ _ _ (Mw 2.0) (Mh 1.8)) (Ml 5.0)) as G2.
  pose proof (conj2 _ _ _ _ (conj2 _ _ _ _ (Mw 2.3) (Mh 2.5)) (Ml 6.0)) as G3.
  pose proof (conj2 _ _ _ _ (conj2 _ _ _ _ (Mw 2.6) (Mh 3.5)) (Ml 12.0)) as G4.
  destruct tagRank_values as (R0 & R1 & R2 & R3 & R4).
  clear -G1 G2 G3 G4 R0 R1 R2 R3 R4.
  destruct ((dim_width d' <? 1.3) && (dim_length d' <? 2.5));
    [rewrite G1 by done; rewrite ?R0, ?R1, ?R2, ?R3, ?R4; lia|].
  destruct ((dim_width d' <? 2) && (dim_height d' <? 1.8) && (dim_length d' <? 5));
    [rewrite G2 by done;
     destruct ((dim_width d <? 1.3) && (dim_length d <? 2.5)); rewrite ?R0, ?R1, ?R2, ?R3, ?R4; lia|].
  destruct ((dim_width d' <? 2.3) && (dim_height d' <? 2.5) && (dim_length d' <? 6));
    [rewrite G3 by done;
     repeat match goal with |- context [if ?b then _ else _] => destruct b end;
     rewrite ?R0, ?R1, ?R2, ?R3, ?R4; lia|].
  destruct ((dim_width d' <? 2.6) && (dim_height d' <? 3.5) && (dim_length d' <? 12));
    [rewrite G4 by done|];
    repeat match goal with |- context [if ?b then _ else _] => destruct b end;
    rewrite ?R0, ?R1, ?R2, ?R3, ?R4; lia.
Qed.

(** X1.  The classifier is monotone: a vehicle that is no smaller in any dimension
    is never put in a smaller class.  (Dimensions that are NaN are not
    comparable, so the hypothesis excludes them.) *)
Theorem classifier_monotone d d' :
  dimLe d d' = true →
  (tagRank (classifyVehicleType d) ≤ tagRank (classifyVehicleType d'))%nat.
Proof. apply classify_rank_mono. Qed.

Lemma classifier_monotone_witness :
  (tagRank (classifyVehicleType (mkDimensions 1.2 1.1 2.4))
   ≤ tagRank (classifyVehicleType (mkDimensions 1.9 1.5 4.5)))%nat.
Proof. apply classifier_monotone. reflexivity. Defined.

Lemma truck_when_not_below d :
  (dim_width d <? 2.6) = false ∨ (dim_length d <? 12.0) = false →
  classifyVehicleType d = "Truck".
Proof.
  assert (∀ v c c' : float, (c <=? c') = true → (v <? c') = false → (v <? c) = false)
    as below.
  { intros v c c' Hc Hv. destruct (v <? c) eqn:E; [|done].
    by rewrite (ltb_leb_trans _ _ _ E Hc) in Hv. }
  rewrite classify_by_guards. intros [H|H].
  - rewrite H, (below _ 1.3 2.6 eq_refl H), (below _ 2.0 2.6 eq_refl H),
      (below _ 2.3 2.6 eq_refl H). done.
  - rewrite H, (below _ 2.5 12.0 eq_refl H), (below _ 5.0 12.0 eq_refl H),
      (below _ 6.0 12.0 eq_refl H). by rewrite !andb_false_r.
Qed.

(** X2.  A width that is not below 2.6, or a length that is not below 12, makes a
    Truck whatever the other dimensions are; a NaN width or length is such a
    value. *)
Theorem truck_beyond_last_threshold d :
  (dim_width d <? 2.6) = false ∨ (dim_length d <? 12.0) = false →
  classifyVehicleType d = "Truck".
Proof. apply truck_when_not_below. Qed.

Lemma truck_beyond_last_threshold_witness :
  classifyVehicleType (mkDimensions nan 1 1) = "Truck".
Proof. apply truck_beyond_last_threshold. left. reflexivity. Defined.

(** X3.  The fine of the detection path is monotone as well: a vehicle that is no
    smaller in any dimension is never fined less. *)
Theorem detected_fine_monotone d d' :
  dimLe d d' = true →
  (calculateFine (classifyVehicleType d)
   <=? calculateFine (classifyVehicleType d')) = true.
Proof.
  intros H. apply classify_rank_mono in H.
  destruct tagRank_values as (R0 & R1 & R2 & R3 & R4).
  destruct (calculateFine_of_tag d) as [[E F]|[[E F]|[[E F]|[[E F]|[E F]]]]],
    (calculateFine_of_tag d') as [[E' F']|[[E' F']|[[E' F']|[[E' F']|[E' F']]]]];
    rewrite F, F'; rewrite E, E' in H;
    rewrite ?R0, ?R1, ?R2, ?R3, ?R4 in H; first [reflexivity | lia].
Qed.

Lemma detected_fine_monotone_witness :
  (calculateFine (classifyVehicleType (mkDimensions 1.2 1.1 2.4))
   <=? calculateFine (classifyVehicleType (mkDimensions 1.9 1.5 4.5))) = true.
Proof. apply detected_fine_monotone. reflexivity. Defined.

End ClassifierOrder.

(** ** The region detector on whole contour lists *)

Section DetectorLists.
Import VehicleDetection.

Lemma detectVehicles_filter cs :
  detectVehicles cs = regionOf <$> filter (λ c, openGate c = true) cs.
Proof. apply fold_detectStep. Qed.

(** X4.  Detection distributes over concatenation of contour lists (the loop
    carries nothing from one contour to the next), it returns at most as many
    regions as there are contours, in contour order, and every region it
    returns passes the gate on its own fields: an area above 1000 and a
    width-to-height ratio strictly between 0.5 and 2.5. *)
Theorem detectVehicles_lists :
  (∀ cs1 cs2,
      detectVehicles (cs1 ++ cs2) = detectVehicles cs1 ++ detectVehicles cs2)
  ∧ (∀ cs, detectVehicles cs `sublist_of` (regionOf <$> cs))
  ∧ (∀ cs, (length (detectVehicles cs) ≤ length cs)%nat)
  ∧ (∀ cs r, r ∈ detectVehicles cs →
        (1000 <? area r) = true
        ∧ (0.5 <? width r / height r) = true
        ∧ (width r / height r <? 2.5) = true).
Proof.
  repeat split.
  - intros cs1 cs2. by rewrite !detectVehicles_filter, filter_app, fmap_app.
  - intros cs. rewrite detectVehicles_filter.
    apply fmap_sublist, sublist_filter.
  - intros cs. rewrite detectVehicles_filter, length_fmap. apply length_filter.
  - rewrite detectVehicles_filter in H.
    apply list_elem_of_fmap in H as (c & -> & Hc).
    apply list_elem_of_filter in Hc as [Hc _]. unfold openGate in Hc.
    apply andb_prop in Hc as [Hc _]. by apply andb_prop in Hc as [Hc _].
  - rewrite detectVehicles_filter in H.
    apply list_elem_of_fmap in H as (c & -> & Hc).
    apply list_elem_of_filter in Hc as [Hc _]. unfold openGate in Hc.
    apply andb_prop in Hc as [Hc _]. by apply andb_prop in Hc as [_ Hc].
  - rewrite detectVehicles_filter in H.
    apply list_elem_of_fmap in H as (c & -> & Hc).
    apply list_elem_of_filter in Hc as [Hc _]. unfold openGate in Hc.
    by apply andb_prop in Hc as [_ Hc].
Qed.

Lemma detectVehicles_lists_witness :
  (1000 <? 2000) = true
  ∧ (0.5 <? 100 / 80) = true
  ∧ (100 / 80 <? 2.5) = true.
Proof.
  apply (proj2 (proj2 (proj2 detectVehicles_lists))
           [mkContour 2000 (mkRect 5 7 100 80)] (mkRegion 5 7 100 80 2000)).
  apply list_elem_of_here.
Defined.

(** Dividing by a zero height gives an infinite ratio or NaN, never a ratio
    inside the gate. *)
Lemma zero_height_ratio (w h : float) :
  (h =? 0) = true → (0.5 <? w / h) && (w / h <? 2.5) = false.
Proof.
  rewrite FloatAxioms.eqb_spec, !FloatAxioms.ltb_spec, FloatAxioms.div_spec.
  change (Prim2SF 0) with (S754_zero false).
  change (Prim2SF 0.5) with (S754_finite false 4503599627370496 (-53)).
  change (Prim2SF 2.5) with (S754_finite false 5629499534213120 (-51)).
  destruct (Prim2SF w) as [[]|[]| |[] mw ew], (Prim2SF h) as [[]|[]| |[] mh eh];
    done.
Qed.

(** X5.  A contour whose bounding rectangle has height zero (of either sign) is
    never kept, whatever its area and width: the division by zero it causes
    does not pass the gate.  Neither is a contour whose area is NaN. *)
Theorem degenerate_contours_dropped :
  (∀ c, (rect_height (boundingRect c) =? 0) = true → detectVehicles [c] = [])
  ∧ (∀ rect, detectVehicles [ {| contourArea := nan; boundingRect := rect |} ] = []).
Proof.
  split.
  - intros c H. rewrite detectVehicles_filter, filter_cons, decide_False; [done|].
    unfold openGate, aspectRatioOf. rewrite <- andb_assoc, (zero_height_ratio _ _ H).
    by rewrite andb_false_r.
  - intros rect. rewrite detectVehicles_filter, filter_cons, decide_False; done.
Qed.

Lemma degenerate_contours_dropped_witness :
  detectVehicles [ {| contourArea := 5000; boundingRect := mkRect 0 0 120 0 |} ] = [].
Proof. apply (proj1 degenerate_contours_dropped). reflexivity. Defined.

End DetectorLists.

(** ** Writing a challan and reading it back *)

Section ReadBack.
Import Firestore ChallanUtils ChallanQueries.

Lemma getChallanById_online id st :
  online st = true →
  getChallanById id st = Ok (mkChallan id <$> challans st !! id).
Proof.
  intros H. unfold getChallanById. rewrite H. by destruct (challans st !! id).
Qed.

(** X6.  What [createChallan] stored is what [getChallanById] returns under the
    new identifier, with the server's time as timestamp whatever timestamp
    the caller supplied; before the call the identifier named no challan,
    and every other identifier reads as before.  After a payment the challan
    reads back paid, with the time of the payment and all other fields as
    they were. *)
Theorem written_challan_reads_back :
  (∀ data now st id st',
      createChallan data now st = (Ok id, st') →
      getChallanById id st = Ok None
      ∧ getChallanById id st' = Ok (Some (mkChallan id (stamped data now)))
      ∧ timestamp (stamped data now) = now
      ∧ ∀ j, j ≠ id → getChallanById j st' = getChallanById j st)
  ∧ (∀ id now st st',
      payChallan id now st = (Ok tt, st') →
      ∃ d, getChallanById id st = Ok (Some (mkChallan id d))
           ∧ getChallanById id st' = Ok (Some (mkChallan id (paidFields now d)))
           ∧ ∀ j, j ≠ id → getChallanById j st' = getChallanById j st).
Proof.
  split.
  - intros data now st id st' H. unfold createChallan, addDoc in H.
    destruct (online st) eqn:Ho; [|done]. injection H as <- <-.
    rewrite !getChallanById_online by done. cbn.
    rewrite lookup_insert_eq.
    rewrite (proj1 (not_elem_of_dom _ _) (is_fresh (dom (challans st)))).
    repeat split. intros j Hj.
    rewrite !getChallanById_online by done. cbn. by rewrite lookup_insert_ne.
  - intros id now st st' H. unfold payChallan, updateDoc in H.
    destruct (online st) eqn:Ho; [|done].
    destruct (challans st !! id) as [d|] eqn:Hd; [|done]. injection H as <-.
    exists d. rewrite !getChallanById_online by done. cbn.
    rewrite lookup_insert_eq, Hd. repeat split.
    intros j Hj.
    rewrite !getChallanById_online by done. cbn. by rewrite lookup_insert_ne.
Qed.

Lemma written_challan_reads_back_witness :
  getChallanById "0" (createChallan Samples.pendingChallan 5 emptyStore).2
  = Ok (Some (mkChallan "0" (stamped Samples.pendingChallan 5))).
Proof.
  apply (proj1 written_challan_reads_back Samples.pendingChallan 5%Z emptyStore "0").
  apply run_step. reflexivity.
Defined.

End ReadBack.

(** ** The queries *)

Section Queries.
Import Firestore ChallanUtils ChallanQueries.

Lemma newestFirst_spec a b :
  newestFirst a b
  ↔ (timestamp b.2 < timestamp a.2)%Z
    ∨ (timestamp a.2 = timestamp b.2 ∧ String.le b.1 a.1).
Proof.
  unfold newestFirst, String.le.
  rewrite orb_True, andb_True, !bool_decide_spec. done.
Qed.

Lemma newestFirst_total : Total (λ a b : string * Doc, newestFirst a b).
Proof.
  intros a b. rewrite !newestFirst_spec.
  destruct (Z.lt_trichotomy (timestamp a.2) (timestamp b.2)) as [H|[H|H]];
    [by right; left| |by left; left].
  destruct (total String.le a.1 b.1); [right|left]; right; done.
Qed.

Lemma newestFirst_trans : Transitive (λ a b : string * Doc, newestFirst a b).
Proof.
  intros a b c. rewrite !newestFirst_spec.
  intros [H1|[H1 N1]] [H2|[H2 N2]]; [left; lia|left; lia|left; lia|].
  right. split; [congruence|]. by etrans.
Qed.

(** What a query returns: exactly the matching documents, each once. *)
Lemma getDocs_Ok matches order st entries :
  getDocs matches order st = Ok entries →
  online st = true
  ∧ entries ≡ₚ filter (λ entry, matches entry.2 = true) (map_to_list (challans st))
  ∧ entries = merge_sort (λ a b, order a b)
                (filter (λ entry, matches entry.2 = true) (map_to_list (challans st))).
Proof.
  unfold getDocs. destruct (online st); [|done]. intros [= <-].
  split; [done|]. split; [apply merge_sort_Permutation|done].
Qed.

Lemma getDocs_elem_of matches order st entries id d :
  getDocs matches order st = Ok entries →
  (id, d) ∈ entries ↔ challans st !! id = Some d ∧ matches d = true.
Proof.
  intros H. apply getDocs_Ok in H as (_ & H & _).
  rewrite H, list_elem_of_filter, elem_of_map_to_list. cbn. tauto.
Qed.

Lemma getDocs_NoDup matches order st entries :
  getDocs matches order st = Ok entries → NoDup entries.*1.
Proof.
  intros H. apply getDocs_Ok in H as (_ & H & _). rewrite H.
  apply (sublist_NoDup _ (map_to_list (challans st)).*1);
    [apply NoDup_fst_map_to_list|apply fmap_sublist, sublist_filter].
Qed.

Lemma withId_elem_of (entries : list (string * Doc)) c :
  c ∈ withId <$> entries ↔ (challan_id c, challan_doc c) ∈ entries.
Proof.
  rewrite list_elem_of_fmap. split.
  - intros ([id d] & -> & H). done.
  - intros H. exists (challan_id c, challan_doc c). by destruct c.
Qed.

Lemma StronglySorted_fmap_impl {A B} (R : relation A) (R' : relation B) (f : A → B) l :
  (∀ a b, R a b → R' (f a) (f b)) →
  StronglySorted R l → StronglySorted R' (f <$> l).
Proof.
  intros HR. induction 1 as [|a l _ IH Ha]; cbn; constructor; [done|].
  rewrite Forall_fmap. eapply Forall_impl; [exact Ha|]. intros b. apply HR.
Qed.

Lemma getUserChallans_elem_of userId st list c :
  getUserChallans userId st = Ok list →
  c ∈ list
  ↔ challans st !! challan_id c = Some (challan_doc c)
    ∧ Firestore.userId (challan_doc c) = Some userId.
Proof.
  unfold getUserChallans.
  destruct (getDocs _ newestFirst st) as [entries|e] eqn:E; [|done]. intros [= <-].
  rewrite withId_elem_of, (getDocs_elem_of _ _ _ _ _ _ E).
  unfold ofUser. by rewrite bool_decide_eq_true.
Qed.

(** X7.  [getUserChallans] returns exactly the challans whose [userId] is the
    given one, each once, the newest first; a challan without [userId], such
    as those the detection path stores, is returned for no user.  When the
    store cannot be reached the query is rejected. *)
Theorem getUserChallans_newest_first userId st :
  (online st = false → getUserChallans userId st = Err Unavailable)
  ∧ (online st = true →
     ∃ list,
       getUserChallans userId st = Ok list
       ∧ (∀ c, c ∈ list
               ↔ challans st !! challan_id c = Some (challan_doc c)
                 ∧ Firestore.userId (challan_doc c) = Some userId)
       ∧ NoDup (challan_id <$> list)
       ∧ StronglySorted
           (λ a b, (timestamp (challan_doc b) ≤ timestamp (challan_doc a))%Z) list).
Proof.
  unfold getUserChallans. split.
  - intros H. unfold getDocs. by rewrite H.
  - intros Ho.
    destruct (getDocs (ofUser userId) newestFirst st) as [entries|e] eqn:E;
      [|unfold getDocs in E; by rewrite Ho in E].
    exists (withId <$> entries). split; [done|]. split; [|split].
    + intros c. apply getUserChallans_elem_of. unfold getUserChallans. by rewrite E.
    + rewrite <- list_fmap_compose. apply (getDocs_NoDup _ _ _ _ E).
    + apply getDocs_Ok in E as (_ & _ & ->).
      eapply StronglySorted_fmap_impl;
        [|apply (StronglySorted_merge_sort _ (Transitive0 := newestFirst_trans)
                   (Total0 := newestFirst_total))].
      intros a b H. apply newestFirst_spec in H. cbn. lia.
Qed.

Lemma getUserChallans_newest_first_witness :
  ∃ list, getUserChallans "user123" Samples.twoCreated = Ok list
          ∧ NoDup (challan_id <$> list).
Proof.
  destruct (proj2 (getUserChallans_newest_first "user123" Samples.twoCreated))
    as (list & H & _ & Hn & _); [reflexivity|].
  by exists list.
Defined.

Lemma getPendingChallans_elem_of userId st list c :
  getPendingChallans userId st = Ok list →
  c ∈ list
  ↔ challans st !! challan_id c = Some (challan_doc c)
    ∧ Firestore.userId (challan_doc c) = Some userId
    ∧ status (challan_doc c) = pending.
Proof.
  unfold getPendingChallans.
  destruct (getDocs _ byName st) as [entries|e] eqn:E; [|done]. intros [= <-].
  rewrite withId_elem_of, (getDocs_elem_of _ _ _ _ _ _ E).
  unfold ofUser, isPending, isPaid.
  rewrite andb_true_iff, bool_decide_eq_true.
  destruct (status (challan_doc c)); cbn;
    (split; [intros (? & ? & ?)|intros (? & ? & ?)]; done).
Qed.

Lemma updateDoc_Ok_online id fields st st' :
  updateDoc id fields st = (Ok tt, st') →
  online st = true ∧ online st' = true.
Proof.
  unfold updateDoc. destruct (online st) eqn:Ho; [|done].
  destruct (challans st !! id); [|done]. by intros [= <-].
Qed.

Lemma getPendingChallans_online userId st :
  online st = true →
  ∃ list, getPendingChallans userId st = Ok list ∧ NoDup (challan_id <$> list).
Proof.
  intros Ho. unfold getPendingChallans.
  destruct (getDocs (λ d, ofUser userId d && isPending d) byName st)
    as [entries|e] eqn:E; [|unfold getDocs in E; by rewrite Ho in E].
  eexists. split; [done|].
  rewrite <- list_fmap_compose. apply (getDocs_NoDup _ _ _ _ E).
Qed.

(** X8.  [getPendingChallans] returns exactly the pending challans of the user,
    each once, and a successful payment takes the paid challan, and nothing
    else, off every user's list. *)
Theorem pending_list_loses_paid_challan userId id now st st' :
  payChallan id now st = (Ok tt, st') →
  ∃ before after,
    getPendingChallans userId st = Ok before
    ∧ getPendingChallans userId st' = Ok after
    ∧ (∀ c, c ∈ before
            ↔ challans st !! challan_id c = Some (challan_doc c)
              ∧ Firestore.userId (challan_doc c) = Some userId
              ∧ status (challan_doc c) = pending)
    ∧ (∀ c, c ∈ after ↔ c ∈ before ∧ challan_id c ≠ id)
    ∧ NoDup (challan_id <$> before)
    ∧ NoDup (challan_id <$> after).
Proof.
  intros H. unfold payChallan in H.
  destruct (updateDoc_Ok_online _ _ _ _ H) as [Ho Ho'].
  apply updateDoc_Ok in H as (d & Hd & Hc).
  destruct (getPendingChallans_online userId st Ho) as (before & Hb & Sb).
  destruct (getPendingChallans_online userId st' Ho') as (after & Ha & Sa).
  exists before, after. split; [done|]. split; [done|].
  split; [intros c; by apply getPendingChallans_elem_of|].
  split; [|done].
  intros c.
  rewrite (getPendingChallans_elem_of _ _ _ _ Ha),
    (getPendingChallans_elem_of _ _ _ _ Hb), Hc.
  destruct (decide (challan_id c = id)) as [->|Hne].
  - rewrite lookup_insert_eq. split; [|by intros [_ ?]].
    intros ([= <-] & _ & Hs). done.
  - rewrite lookup_insert_ne by done. split; [by intros ?|by intros [? _]].
Qed.

Lemma pending_list_loses_paid_challan_witness :
  ∃ before after,
    getPendingChallans "user123" Samples.twoCreated = Ok before
    ∧ getPendingChallans "user123" Samples.paidOnce = Ok after
    ∧ ∀ c, c ∈ after ↔ c ∈ before ∧ challan_id c ≠ "0".
Proof.
  destruct (pending_list_loses_paid_challan "user123" "0" 20%Z
              Samples.twoCreated Samples.paidOnce)
    as (before & after & Hb & Ha & _ & H & _).
  - apply run_step. reflexivity.
  - by exists before, after.
Defined.

End Queries.

(** ** What no operation ever does to a stored challan *)

Section Immutability.
Import Firestore ChallanUtils ChallanPayment Evolution.

Lemma sameChallan_refl d : sameChallan d d.
Proof. by repeat split. Qed.

Lemma sameChallan_trans d1 d2 d3 :
  sameChallan d1 d2 → sameChallan d2 d3 → sameChallan d1 d3.
Proof.
  intros (A1 & A2 & A3 & A4 & A5 & A6 & A7 & A8 & A9 & A10 & A11)
         (B1 & B2 & B3 & B4 & B5 & B6 & B7 & B8 & B9 & B10 & B11).
  repeat split; try congruence; auto.
Qed.

Lemma kept_refl st : kept st st.
Proof. intros id d H. exists d. split; [done|apply sameChallan_refl]. Qed.

Lemma kept_trans st1 st2 st3 : kept st1 st2 → kept st2 st3 → kept st1 st3.
Proof.
  intros H1 H2 id d H. destruct (H1 _ _ H) as (d2 & Hd2 & S1).
  destruct (H2 _ _ Hd2) as (d3 & Hd3 & S2). exists d3.
  split; [done|by eapply sameChallan_trans].
Qed.

Lemma kept_same_challans st st' : challans st' = challans st → kept st st'.
Proof. intros H id d Hd. exists d. rewrite H. split; [done|apply sameChallan_refl]. Qed.

Lemma addDoc_kept data st : kept st (addDoc data st).2.
Proof.
  unfold addDoc. destruct (online st); [|apply kept_refl].
  intros id d Hd. exists d. cbn. split; [|apply sameChallan_refl].
  rewrite lookup_insert_ne; [done|]. intros <-.
  by rewrite (proj1 (not_elem_of_dom _ _) (is_fresh (dom (challans st)))) in Hd.
Qed.

Lemma updateDoc_kept id fields st :
  (∀ d, sameChallan d (fields d)) → kept st (updateDoc id fields st).2.
Proof.
  intros Hf. unfold updateDoc. destruct (online st); [|apply kept_refl].
  destruct (challans st !! id) as [d0|] eqn:E; [|apply kept_refl].
  intros j d Hd. cbn. destruct (decide (id = j)) as [->|Hne].
  - rewrite lookup_insert_eq. exists (fields d0). split; [done|].
    rewrite E in Hd. injection Hd as ->. apply Hf.
  - rewrite lookup_insert_ne by done. exists d. split; [done|apply sameChallan_refl].
Qed.

Lemma paidFields_same now d : sameChallan d (paidFields now d).
Proof. by repeat split. Qed.

Lemma paymentFields_same method now d : sameChallan d (paymentFields method now d).
Proof. by repeat split. Qed.

Lemma processVehicleFrame_kept recognize image location camera now st :
  kept st (NumberPlateDetection.processVehicleFrame
             recognize image location camera now st).2.
Proof.
  unfold NumberPlateDetection.processVehicleFrame.
  destruct (NumberPlateDetection.detectNumberPlate recognize image) as [[|c plate]|];
    try apply kept_refl.
  match goal with |- context [addDoc ?data st] =>
    pose proof (addDoc_kept data st) as H; destruct (addDoc data st) as [[id|e] st']
  end; [exact H|apply kept_refl].
Qed.

Lemma handlePayment_kept loaded method id now st :
  kept st (handlePayment loaded method id now st).2.
Proof.
  unfold handlePayment. destruct loaded, method; try apply kept_refl.
  match goal with |- context [updateDoc id ?f st] =>
    pose proof (updateDoc_kept id f st (paymentFields_same _ now)) as H;
    destruct (updateDoc id f st) as [[[]|e] st']
  end; [exact H|apply kept_refl].
Qed.

Lemma handleAddChallan_kept violations vehicles page clientNow st :
  kept st (ManualEntry.handleAddChallan violations vehicles page clientNow st).2.
Proof.
  unfold ManualEntry.handleAddChallan. cbv zeta.
  destruct (violations !! ManualEntry.form_violationType (ManualEntry.newChallan page)),
    (vehicles !! ManualEntry.form_vehicleType (ManualEntry.newChallan page));
    try apply kept_refl.
  match goal with |- context [addDoc ?data st] =>
    pose proof (addDoc_kept data st) as H; destruct (addDoc data st) as [[id|e] st']
  end; [exact H|apply kept_refl].
Qed.

Lemma importEntries_kept userId serverTime k entries st :
  kept st (ChallanQueries.importEntries userId serverTime k entries st).2.
Proof.
  revert k st. induction entries as [|entry rest IH]; intros k st; cbn.
  - apply kept_refl.
  - unfold createChallan.
    match goal with |- context [addDoc ?data st] =>
      pose proof (addDoc_kept data st) as H; destruct (addDoc data st) as [[id|e] st']
    end; [|exact H].
    eapply kept_trans; [exact H|apply IH].
Qed.

Lemma step_kept strict st st' : step strict st st' → kept st st'.
Proof.
  destruct 1.
  - by apply kept_same_challans.
  - apply processVehicleFrame_kept.
  - apply updateDoc_kept, paidFields_same.
  - apply handlePayment_kept.
  - apply handleAddChallan_kept.
  - apply addDoc_kept.
  - apply importEntries_kept.
Qed.

Lemma evolves_kept strict st st' : evolves strict st st' → kept st st'.
Proof.
  induction 1 as [st|st1 st2 st3 H _ IH]; [apply kept_refl|].
  eapply kept_trans; [by eapply step_kept|exact IH].
Qed.

(** X9.  Whatever the sources do to the collection, in any number and order, a
    challan that is stored stays stored under its identifier with the same
    vehicle number, location, timestamp, amount, vehicle type, violation
    type, user and dimensions; only its payment fields change, a paid challan
    stays paid, and a payment time or method, once there, stays there. *)
Theorem stored_challan_is_kept strict st st' id d :
  evolves strict st st' →
  challans st !! id = Some d →
  ∃ d', challans st' !! id = Some d' ∧ sameChallan d d'.
Proof. intros H. by apply (evolves_kept strict). Qed.

Lemma stored_challan_is_kept_witness :
  ∃ d', challans Samples.paidTwice !! "0" = Some d'
        ∧ sameChallan (stamped Samples.pendingChallan 5) d'.
Proof.
  apply (stored_challan_is_kept false
           (createChallan Samples.pendingChallan 5 emptyStore).2 Samples.paidTwice).
  - eapply rtc_l; [apply (step_create false Samples.pendingChallan 10%Z); done|].
    eapply rtc_l; [apply (step_pay false "0" 20%Z)|].
    eapply rtc_l; [apply (step_pay false "0" 30%Z)|].
    apply rtc_refl.
  - reflexivity.
Defined.

(** *** Payment fields *)

Lemma addDoc_consistent data st :
  paymentConsistent data → consistent st → consistent (addDoc data st).2.
Proof.
  intros Hd Hst. unfold addDoc. destruct (online st); [|done].
  intros id d. cbn. destruct (decide (fresh (dom (challans st)) = id)) as [->|Hne].
  - rewrite lookup_insert_eq. by intros [= <-].
  - rewrite lookup_insert_ne by done. apply Hst.
Qed.

Lemma updateDoc_consistent id fields st :
  (∀ d, paymentConsistent d → paymentConsistent (fields d)) →
  consistent st → consistent (updateDoc id fields st).2.
Proof.
  intros Hf Hst. unfold updateDoc. destruct (online st); [|done].
  destruct (challans st !! id) as [d0|] eqn:E; [|done].
  intros j d. cbn. destruct (decide (id = j)) as [->|Hne].
  - rewrite lookup_insert_eq. intros [= <-]. eapply Hf, Hst, E.
  - rewrite lookup_insert_ne by done. apply Hst.
Qed.

Lemma paidFields_consistent now d : paymentConsistent (paidFields now d).
Proof. split; [done|by eexists]. Qed.

Lemma paymentFields_consistent method now d :
  paymentConsistent (paymentFields method now d).
Proof. split; [done|by eexists]. Qed.

Lemma step_consistent st st' : step true st st' → consistent st → consistent st'.
Proof.
  destruct 1 as [st b|recognize image location camera now st|id now st
                |loaded method id now st|violations vehicles page clientNow st Hs
                |data now st Hs|userId entries serverTime st Hs];
    intros Hst; try done.
  - unfold NumberPlateDetection.processVehicleFrame.
    destruct (NumberPlateDetection.detectNumberPlate recognize image)
      as [[|c plate]|]; try done.
    match goal with |- context [addDoc ?data st] =>
      assert (consistent (addDoc data st).2) as H
        by (apply addDoc_consistent; [by split|done]);
      destruct (addDoc data st) as [[id|e] st']
    end; done.
  - apply updateDoc_consistent; [|done]. intros d _. apply paidFields_consistent.
  - unfold handlePayment. destruct loaded, method; try done.
    match goal with |- context [updateDoc id ?f st] =>
      assert (consistent (updateDoc id f st).2) as H
        by (apply updateDoc_consistent;
            [intros d' _; apply paymentFields_consistent|done]);
      destruct (updateDoc id f st) as [[[]|e] st']
    end; done.
  - unfold ManualEntry.handleAddChallan. cbv zeta.
    destruct (violations !! ManualEntry.form_violationType (ManualEntry.newChallan page)),
      (vehicles !! ManualEntry.form_vehicleType (ManualEntry.newChallan page));
      try done.
    match goal with |- context [addDoc ?data st] =>
      assert (consistent (addDoc data st).2) as H
        by (apply addDoc_consistent; [|done]; split; [done|];
            cbn; rewrite (Hs eq_refl); done);
      destruct (addDoc data st) as [[id|e] st']
    end; done.
Qed.

(** X10.  Starting from an empty collection, as long as challans are created by
    the detection path and by the manual form only and paid through
    [payChallan] or the payment page, every pending challan has neither a
    payment time nor a payment method, and every paid challan has a payment
    time.  (A payment method is not guaranteed: [payChallan] records none.) *)
Theorem payment_fields_stay_consistent st id d :
  evolves true emptyStore st →
  challans st !! id = Some d →
  (status d = pending → paidAt d = None ∧ paymentMethod d = None)
  ∧ (status d = paid → is_Some (paidAt d)).
Proof.
  intros H. revert id d. change (consistent st).
  assert (consistent emptyStore) as H0
    by (intros id d Hd; cbn in Hd; by rewrite lookup_empty in Hd).
  revert H0 H. generalize emptyStore. intros st0 H0 H.
  induction H as [st0|st1 st2 st3 Hs _ IH]; [done|].
  apply IH. by eapply step_consistent.
Qed.

Lemma payment_fields_stay_consistent_witness :
  challans MoreSamples.detectedThenPaid !! "0"
  = Some (paidFields 20 MoreSamples.detectedDoc)
  ∧ is_Some (paidAt (paidFields 20 MoreSamples.detectedDoc)).
Proof.
  split; [reflexivity|].
  refine (proj2 (payment_fields_stay_consistent MoreSamples.detectedThenPaid
                   "0" (paidFields 20 MoreSamples.detectedDoc) _ _) eq_refl).
  - eapply rtc_l;
      [apply (step_detect true Samples.readsPlate Samples.crop "One-Way Street"
                Samples.sessionCamera 0%Z)|].
    eapply rtc_l; [apply (step_pay true "0" 20%Z)|]. apply rtc_refl.
  - reflexivity.
Defined.

(** *** Detected challans and the users' lists *)

(** X11.  A challan the detection path has stored carries no [userId], and nothing
    ever gives it one: whatever happens to the collection afterwards, it is
    on no user's list, neither [getUserChallans]'s nor
    [getPendingChallans]'s. *)
Theorem detected_challan_on_no_list
    strict recognize image location camera now st0 result st st' userId :
  NumberPlateDetection.processVehicleFrame recognize image location camera now st0
  = (Some result, st) →
  evolves strict st st' →
  (∀ list c, ChallanQueries.getUserChallans userId st' = Ok list →
             c ∈ list → ChallanQueries.challan_id c ≠ NumberPlateDetection.res_id result)
  ∧ (∀ list c, ChallanQueries.getPendingChallans userId st' = Ok list →
               c ∈ list →
               ChallanQueries.challan_id c ≠ NumberPlateDetection.res_id result).
Proof.
  intros Hp He.
  apply processVehicleFrame_created in Hp as (plate & _ & _ & _ & Hc & _).
  assert (∀ d, challans st' !! NumberPlateDetection.res_id result = Some d →
               Firestore.userId d = None) as Hnone.
  { intros d Hd. destruct (evolves_kept _ _ _ He (NumberPlateDetection.res_id result)
      (NumberPlateDetection.detectedChallan plate
         (NumberPlateDetection.res_vehicleType result) location now
         (NumberPlateDetection.calculateFine (NumberPlateDetection.res_vehicleType result))
         (NumberPlateDetection.res_dimensions result)))
      as (d' & Hd' & S).
    - rewrite Hc. apply lookup_insert_eq.
    - rewrite Hd in Hd'. injection Hd' as <-.
      destruct S as (_ & _ & _ & _ & _ & _ & Hu & _). by rewrite Hu. }
  split; intros list c Hl Hin Heq.
  - apply (getUserChallans_elem_of _ _ _ _ Hl) in Hin as [Hd Hu].
    rewrite Heq in Hd. by rewrite (Hnone _ Hd) in Hu.
  - apply (getPendingChallans_elem_of _ _ _ _ Hl) in Hin as (Hd & Hu & _).
    rewrite Heq in Hd. by rewrite (Hnone _ Hd) in Hu.
Qed.

Lemma detected_challan_on_no_list_witness :
  NumberPlateDetection.processVehicleFrame Samples.readsPlate Samples.crop
    "One-Way Street" Samples.sessionCamera 0%Z emptyStore
  = (Some (NumberPlateDetection.mkFrameResult "0" (Js.codes "AB12CD3456") "Truck"
             (VehicleDetection.calculateVehicleDimensions
                (VehicleDetection.mkBoundingBox 200 100) Samples.sessionCamera) 2500),
     MoreSamples.detected)
  ∧ ∀ list c,
      ChallanQueries.getUserChallans "user123" MoreSamples.detectedThenPaid = Ok list →
      c ∈ list → ChallanQueries.challan_id c ≠ "0".
Proof.
  split; [reflexivity|].
  refine (proj1 (detected_challan_on_no_list true Samples.readsPlate Samples.crop
            "One-Way Street" Samples.sessionCamera 0%Z emptyStore
            (NumberPlateDetection.mkFrameResult "0" (Js.codes "AB12CD3456") "Truck"
               (VehicleDetection.calculateVehicleDimensions
                  (VehicleDetection.mkBoundingBox 200 100) Samples.sessionCamera) 2500)
            MoreSamples.detected MoreSamples.detectedThenPaid "user123" _ _)).
  - reflexivity.
  - eapply rtc_l; [apply (step_pay true "0" 20%Z)|]. apply rtc_refl.
Defined.

End Immutability.

(** ** The JSON import *)

Section JsonImport.
Import Firestore ChallanUtils ChallanQueries.

Lemma importEntries_online userId serverTime entries : ∀ k st,
  online st = true →
  ∃ (ids : list string) st',
    importEntries userId serverTime k entries st = (Ok tt, st')
    ∧ online st' = true
    ∧ length ids = length entries
    ∧ NoDup ids
    ∧ (∀ id, id ∈ ids → challans st !! id = None)
    ∧ (∀ i id entry, ids !! i = Some id → entries !! i = Some entry →
         challans st' !! id
         = Some (stamped (importedChallan userId entry) (serverTime (k + i)%nat)))
    ∧ (∀ id, id ∉ ids → challans st' !! id = challans st !! id).
Proof.
  induction entries as [|entry rest IH]; intros k st Ho.
  - exists [], st. cbn. repeat split; try done.
    + constructor.
    + intros id H. by apply elem_of_nil in H.
  - cbn [importEntries]. unfold createChallan. rewrite (addDoc_online _ _ Ho).
    set (id0 := fresh (dom (challans st))).
    set (data := stamped (importedChallan userId entry) (serverTime k)).
    set (st1 := withChallans st (<[id0 := data]> (challans st))).
    destruct (IH (S k) st1 Ho) as (ids & st' & Hrun & Ho' & Hlen & Hnd & Hnew & Hat & Hrest).
    assert (challans st !! id0 = None) as Hfresh by apply not_elem_of_dom, is_fresh.
    assert (id0 ∉ ids) as Hnot.
    { intros Hin. apply Hnew in Hin. cbn in Hin. by rewrite lookup_insert_eq in Hin. }
    exists (id0 :: ids), st'. split; [done|]. split; [done|].
    split; [cbn; by rewrite Hlen|]. split; [by constructor|].
    split; [|split].
    + intros id Hin. apply elem_of_cons in Hin as [->|Hin]; [done|].
      apply Hnew in Hin. cbn in Hin. by apply lookup_insert_None in Hin as [Hin _].
    + intros [|i] id e Hi He; cbn in Hi, He.
      * injection Hi as <-. injection He as <-.
        rewrite (Hrest _ Hnot). cbn. rewrite lookup_insert_eq.
        by rewrite Nat.add_0_r.
      * rewrite (Hat i id e Hi He). do 3 f_equal. lia.
    + intros id Hin. apply not_elem_of_cons in Hin as [Hne Hin].
      rewrite (Hrest _ Hin). cbn. by rewrite lookup_insert_ne.
Qed.

(** X12.  While the store can be reached, the import succeeds and stores one new
    challan per entry, in entry order and under identifiers that were free:
    a Car with a No-Entry Zone Violation at an unknown location, for the
    given user, with the entry's vehicle number and charge.  Its timestamp is
    the server's time at the write, not the entry's [time]; an entry marked
    paid is stored as paid without a payment time.  Nothing else in the
    collection changes.  When the store cannot be reached, the import of a
    file with at least one entry is rejected and nothing is stored; the
    import of an empty file succeeds even then. *)
Theorem import_stores_every_entry userId entries serverTime st :
  (online st = true →
   ∃ (ids : list string) st',
     addChallansFromJSON userId entries serverTime st = (Ok tt, st')
     ∧ length ids = length entries
     ∧ NoDup ids
     ∧ (∀ id, id ∈ ids → challans st !! id = None)
     ∧ (∀ i id entry, ids !! i = Some id → entries !! i = Some entry →
          ∃ d, challans st' !! id = Some d
               ∧ vehicleNumber d = vehicleNo entry
               ∧ amount d = charge entry
               ∧ Firestore.userId d = Some userId
               ∧ vehicleType d = "Car"
               ∧ violationType d = "No-Entry Zone Violation"
               ∧ location d = "Unknown"
               ∧ timestamp d = serverTime i
               ∧ status d = (if entry_paid entry then paid else pending)
               ∧ paidAt d = None ∧ paymentMethod d = None)
     ∧ (∀ id, id ∉ ids → challans st' !! id = challans st !! id))
  ∧ (online st = false →
     addChallansFromJSON userId entries serverTime st
     = (match entries with [] => Ok tt | _ => Err Unavailable end, st)).
Proof.
  split; intros Ho.
  - destruct (importEntries_online userId serverTime entries 0 st Ho)
      as (ids & st' & Hrun & _ & Hlen & Hnd & Hnew & Hat & Hrest).
    exists ids, st'. repeat split; try done.
    intros i id entry Hi He. eexists. split; [exact (Hat i id entry Hi He)|].
    by repeat split.
  - unfold addChallansFromJSON. destruct entries as [|entry rest]; [done|].
    cbn [importEntries]. unfold createChallan, addDoc. by rewrite Ho.
Qed.

Lemma import_stores_every_entry_witness :
  ∃ (ids : list string) st',
    addChallansFromJSON "user123"
      [mkEntry (Js.codes "KA01MN2345") 700 true 1%Z] (λ k, 50%Z) emptyStore
    = (Ok tt, st')
    ∧ length ids = 1%nat.
Proof.
  destruct (proj1 (import_stores_every_entry "user123"
                     [mkEntry (Js.codes "KA01MN2345") 700 true 1%Z] (λ k, 50%Z)
                     emptyStore) eq_refl)
    as (ids & st' & Hrun & Hlen & _).
  by exists ids, st'.
Defined.

End JsonImport.

(** ** Manual entry *)

Section Manual.
Import Firestore ChallanUtils ManualEntry.

Lemma edits_keep_status edits : ∀ form,
  form_status (foldl applyEdit form edits) = form_status form.
Proof.
  induction edits as [|edit edits IH]; intros form; [done|].
  cbn [foldl]. rewrite IH. by destruct edit.
Qed.

(** X13.  However the form was filled in, adding the challan with both types
    found in the tables stores, while the store can be reached, one new
    pending challan whose amount is the amount of the violation plus the base
    amount of the vehicle; it belongs to the user ["user123"] and carries the
    browser's time.  The form is then blank again and the dialog closed.
    When the store cannot be reached, the page and the collection stay as
    they are. *)
Theorem manual_entry_stores_the_sum
    violations vehicles edits shown clientNow st violation vehicle :
  let form := foldl applyEdit blankForm edits in
  violations !! form_violationType form = Some violation →
  vehicles !! form_vehicleType form = Some vehicle →
  (online st = true →
   ∃ id d,
     handleAddChallan violations vehicles (mkPage form shown) clientNow st
     = (mkPage blankForm false, withChallans st (<[id := d]> (challans st)))
     ∧ challans st !! id = None
     ∧ amount d = violation_amount violation + baseAmount vehicle
     ∧ status d = pending ∧ paidAt d = None ∧ paymentMethod d = None
     ∧ userId d = Some "user123" ∧ timestamp d = clientNow
     ∧ vehicleNumber d = form_vehicleNumber form
     ∧ vehicleType d = form_vehicleType form
     ∧ violationType d = form_violationType form
     ∧ location d = form_location form)
  ∧ (online st = false →
     handleAddChallan violations vehicles (mkPage form shown) clientNow st
     = (mkPage form shown, st)).
Proof.
  intros form Hviolation Hvehicle. unfold handleAddChallan. cbn [newChallan].
  fold form. rewrite Hviolation, Hvehicle. split; intros Ho.
  - rewrite (addDoc_online _ _ Ho).
    eexists _, _. split; [reflexivity|].
    split; [apply not_elem_of_dom, is_fresh|].
    cbn. repeat split. unfold form. by rewrite edits_keep_status.
  - unfold addDoc. by rewrite Ho.
Qed.

Lemma manual_entry_stores_the_sum_witness :
  ∃ id d,
    handleAddChallan Samples.violationTable Samples.vehicleTable
      (mkPage (foldl applyEdit blankForm
                 [EditViolationType "No-Entry Zone Violation"; EditVehicleType "Truck";
                  EditVehicleNumber (Js.codes "KA01MN2345")])
         true)
      7%Z emptyStore
    = (mkPage blankForm false, withChallans emptyStore (<[id := d]> ∅))
    ∧ amount d = 1000 + 2000
    ∧ status d = pending
    ∧ userId d = Some "user123"
    ∧ vehicleNumber d = Js.codes "KA01MN2345".
Proof.
  destruct (proj1 (manual_entry_stores_the_sum Samples.violationTable
                     Samples.vehicleTable
                     [EditViolationType "No-Entry Zone Violation"; EditVehicleType "Truck";
                      EditVehicleNumber (Js.codes "KA01MN2345")]
                     true 7%Z emptyStore
                     (mkViolationInfo 1000 "Entered a no-entry zone")
                     (mkVehicleInfo 2000 "Truck") eq_refl eq_refl) eq_refl)
    as (id & d & Hrun & _ & Hamount & Hstatus & _ & _ & Huser & _ & Hnumber & _).
  exists id, d. split; [exact Hrun|]. split; [exact Hamount|].
  split; [exact Hstatus|]. split; [exact Huser|exact Hnumber].
Defined.

End Manual.

(** ** The payment page and its route *)

Section Route.
Import Firestore ChallanPayment PaymentPage.

(** X14.  The page shows a payment as successful only if the route gave it a
    [challanId], that challan was found when the page loaded and is still
    there when the button is pressed, and a payment method was chosen; the
    challan is then stored as paid, whatever its status was, and nothing else
    changes.  Under the route [App] declares, whose parameter is named [id],
    there is no [challanId]: the page reports that the challan identifier was
    not found, and pressing the button writes nothing. *)
Theorem payment_page_pays_the_loaded_challan :
  (∀ params method now atLoad st st',
      openAndPay params method now atLoad st = (ShowSuccess, st') →
      ∃ id loaded stored chosen,
        params !! "challanId" = Some id
        ∧ challans atLoad !! id = Some loaded
        ∧ challans st !! id = Some stored
        ∧ method = Some chosen
        ∧ challans st' = <[id := paymentFields chosen now stored]> (challans st))
  ∧ (∀ segment method now atLoad st,
      fetchChallan (challanIdOf (routeParams segment)) atLoad
      = {| challan := None; error := Some "Challan ID not found" |}
      ∧ openAndPay (routeParams segment) method now atLoad st = (Unchanged, st)).
Proof.
  split.
  - intros params method now atLoad st st' H. unfold openAndPay, challanIdOf in H.
    cbv zeta in H. unfold handlePayment in H.
    destruct (params !! "challanId") as [id|] eqn:Hid; [|done].
    change (default "" (Some id)) with id in H.
    destruct (challan (fetchChallan (Some id) atLoad)) as [loaded|] eqn:Hl; [|done].
    destruct method as [chosen|]; [|done].
    destruct (updateDoc id (paymentFields chosen now) st) as [[[]|e] st1] eqn:Hu;
      [|done].
    injection H as <-. apply updateDoc_Ok in Hu as (stored & Hs & Hc).
    exists id, loaded, stored, chosen. repeat split; try done.
    unfold fetchChallan in Hl. destruct id as [|a id]; [done|].
    destruct (online atLoad); [|done].
    by destruct (challans atLoad !! String a id) as [d|]; [injection Hl as ->|].
  - intros segment method now atLoad st. unfold openAndPay, challanIdOf, routeParams.
    by rewrite lookup_singleton_ne.
Qed.

Lemma payment_page_pays_the_loaded_challan_witness :
  ∃ id loaded stored chosen,
    ({[ "challanId" := "c1" ]} : gmap string string) !! "challanId" = Some id
    ∧ challans Samples.pendingStore !! id = Some loaded
    ∧ challans Samples.paidStore !! id = Some stored
    ∧ Some card = Some chosen
    ∧ challans (openAndPay {[ "challanId" := "c1" ]} (Some card) 30%Z
                  Samples.pendingStore Samples.paidStore).2
      = <[id := paymentFields chosen 30%Z stored]> (challans Samples.paidStore).
Proof.
  apply (proj1 payment_page_pays_the_loaded_challan
           {[ "challanId" := "c1" ]} (Some card) 30%Z
           Samples.pendingStore Samples.paidStore).
  reflexivity.
Defined.

End Route.

(** ** The per-type counters *)

Section Counters.
Import Firestore AdminDashboard Counting.

Lemma counted_bump start n :
  counted (Some match start with
                | Some (Num k) => Num (k + 1)
                | _ => NotANumber
                end) n
  = counted start (S n).
Proof.
  destruct start as [[k|]|], n as [|n]; unfold counted; try done; do 2 f_equal; lia.
Qed.

Lemma bump_lookup table key key' :
  bump table key !! key'
  = if decide (key = key') then counted (table !! key') 1 else table !! key'.
Proof.
  unfold bump. destruct (decide (key = key')) as [->|Hne].
  - rewrite lookup_insert_eq. by destruct (table !! key') as [[k|]|].
  - by rewrite lookup_insert_ne.
Qed.

Lemma fold_tally_types docs : ∀ stats key,
  violationStats (fold_left tally docs stats) !! key
  = counted (violationStats stats !! key) (withViolation key docs)
  ∧ vehicleTypeStats (fold_left tally docs stats) !! key
    = counted (vehicleTypeStats stats !! key) (withVehicle key docs).
Proof.
  unfold withViolation, withVehicle.
  induction docs as [|d docs IH]; intros stats key; [done|].
  cbn [fold_left]. destruct (IH (tally stats d) key) as [-> ->].
  unfold tally. cbn [violationStats vehicleTypeStats].
  rewrite !bump_lookup, !filter_cons. split.
  - destruct (decide (violationType d = key)) as [E|Hne]; [|done].
    cbn [length]. unfold counted at 2. apply counted_bump.
  - destruct (decide (vehicleType d = key)) as [E|Hne]; [|done].
    cbn [length]. unfold counted at 2. apply counted_bump.
Qed.

(** X15.  After a scan, the counter of a violation type is the initial one plus
    the number of challans of the snapshot with that type, and likewise for
    vehicle types.  A type the initial table does not list, or lists as not
    a number, shows as not a number as soon as one challan has it, and
    stays absent from the table while no challan has it. *)
Theorem type_counters_count_challans initial docs key :
  let stats := computeStatistics initial docs in
  violationStats stats !! key
  = counted (violationStats initial !! key) (withViolation key docs)
  ∧ vehicleTypeStats stats !! key
    = counted (vehicleTypeStats initial !! key) (withVehicle key docs).
Proof. apply fold_tally_types. Qed.

(** X16.  The counters do not depend on the order in which the snapshot lists the
    challans, and a scan adds as much to the total as to the paid and the
    pending counters together.  (The revenue is a floating-point sum taken
    in snapshot order and is left out.) *)
Theorem counters_ignore_snapshot_order initial docs docs' :
  docs ≡ₚ docs' →
  let stats := computeStatistics initial docs in
  let stats' := computeStatistics initial docs' in
  totalChallans stats = totalChallans stats'
  ∧ paidChallans stats = paidChallans stats'
  ∧ pendingChallans stats = pendingChallans stats'
  ∧ violationStats stats = violationStats stats'
  ∧ vehicleTypeStats stats = vehicleTypeStats stats'
  ∧ (totalChallans stats - totalChallans initial
     = (paidChallans stats - paidChallans initial)
       + (pendingChallans stats - pendingChallans initial))%Z.
Proof.
  intros H. cbv zeta. unfold computeStatistics.
  destruct (fold_tally docs initial) as (Ht & Hp & Hq & _).
  destruct (fold_tally docs' initial) as (Ht' & Hp' & Hq' & _).
  rewrite Ht, Hp, Hq, Ht', Hp', Hq'.
  rewrite (Permutation_length H), (paidCount_perm _ _ H).
  repeat split; try lia.
  - apply map_eq. intros key.
    rewrite (proj1 (fold_tally_types docs initial key)),
      (proj1 (fold_tally_types docs' initial key)).
    unfold withViolation. by rewrite H.
  - apply map_eq. intros key.
    rewrite (proj2 (fold_tally_types docs initial key)),
      (proj2 (fold_tally_types docs' initial key)).
    unfold withVehicle. by rewrite H.
Qed.

Lemma counters_ignore_snapshot_order_witness :
  violationStats
    (computeStatistics Samples.zeroStatistics [Samples.paidChallan; Samples.pendingChallan])
  = violationStats
      (computeStatistics Samples.zeroStatistics [Samples.pendingChallan; Samples.paidChallan]).
Proof.
  apply (counters_ignore_snapshot_order Samples.zeroStatistics
           [Samples.paidChallan; Samples.pendingChallan]
           [Samples.pendingChallan; Samples.paidChallan]).
  apply Permutation_swap.
Defined.

End Counters.

(** ** Rounding values of at least 53 bits *)

Section LargeValues.
Import Binary64.
#[local] Open Scope Z_scope.

#[local] Abbreviation bra := (binary_round_aux prec emax).
#[local] Abbreviation emin := (SpecFloat.emin prec emax).

Lemma shr_1_one_digit mrs :
  0 <= shr_m mrs -> 2 <= Zdigits2 (shr_m mrs) ->
  Zdigits2 (shr_m (shr_1 mrs)) = Zdigits2 (shr_m mrs) - 1.
Proof.
  destruct mrs as [m r s]. cbn [shr_m]. intros Hm Hd.
  destruct m as [|[p|p|]|p]; cbn in *; lia.
Qed.

Lemma iter_shr_1_digits p : forall mrs,
  0 <= shr_m mrs -> Z.pos p < Zdigits2 (shr_m mrs) ->
  0 <= shr_m (SpecFloat.iter_pos shr_1 p mrs)
  /\ Zdigits2 (shr_m (SpecFloat.iter_pos shr_1 p mrs)) = Zdigits2 (shr_m mrs) - Z.pos p.
Proof.
  induction p as [p IH|p IH|]; intros mrs Hm Hd; cbn [SpecFloat.iter_pos].
  - destruct (shr_1_digits mrs Hm) as [H1 _].
    pose proof (shr_1_one_digit mrs Hm ltac:(lia)) as H2.
    destruct (IH (shr_1 mrs) H1 ltac:(lia)) as [H3 H4].
    destruct (IH _ H3 ltac:(lia)) as [H5 H6]. split; [done|lia].
  - destruct (IH mrs Hm ltac:(lia)) as [H3 H4].
    destruct (IH _ H3 ltac:(lia)) as [H5 H6]. split; [done|lia].
  - destruct (shr_1_digits mrs Hm) as [H1 _].
    pose proof (shr_1_one_digit mrs Hm ltac:(lia)) as H2. split; [done|lia].
Qed.

Lemma shr_exact_digits mrs e n :
  0 <= shr_m mrs -> 0 <= n < Zdigits2 (shr_m mrs) ->
  0 <= shr_m (shr mrs e n).1
  /\ Zdigits2 (shr_m (shr mrs e n).1) = Zdigits2 (shr_m mrs) - n.
Proof.
  intros Hm Hn. destruct n as [|p|p]; cbn [shr fst]; [split; [done|lia]| |lia].
  apply iter_shr_1_digits; [done|lia].
Qed.

Lemma Zdigits2_mono a b : 0 <= a <= b -> Zdigits2 a <= Zdigits2 b.
Proof.
  intros [Ha Hab]. destruct a as [|a|a]; [|destruct b as [|b|b]; [lia| |lia]|lia].
  - apply Zdigits2_nonneg.
  - rewrite !Zdigits2_log2. pose proof (Z.log2_le_mono (Z.pos a) (Z.pos b) Hab). lia.
Qed.

Lemma round_up_digits m l :
  0 <= m ->
  m <= round_nearest_even m l
  /\ Zdigits2 m <= Zdigits2 (round_nearest_even m l) <= Zdigits2 m + 1.
Proof.
  intros Hm. destruct (round_digits m l Hm) as [H0 H1].
  assert (m <= round_nearest_even m l) as H
    by (unfold round_nearest_even; destruct l as [|[]]; try destruct (Z.even m); lia).
  split; [done|]. split; [apply Zdigits2_mono; lia|done].
Qed.

(** A value of at least 53 bits, far from the subnormal range, rounds to an
    infinity or to a normal number whose exponent is not below the one the
    53 leading bits start at. *)
Lemma bra_large s M E l :
  0 <= M -> prec <= Zdigits2 M -> emin <= Zdigits2 M + E - prec ->
  bra s M E l = S754_infinity s
  \/ exists m' e', bra s M E l = S754_finite s m' e'
                   /\ Zdigits2 M + E - prec <= e'
                   /\ Z.pos (digits2_pos m') = prec.
Proof.
  intros HM Hd Hn. unfold binary_round_aux, shr_fexp.
  rewrite (fexp_normal (Zdigits2 M + E)) by done.
  pose proof (shr_snd (shr_record_of_loc M l) E (Zdigits2 M + E - prec - E)) as He1.
  pose proof (shr_exact_digits (shr_record_of_loc M l) E (Zdigits2 M + E - prec - E))
    as Hd1.
  rewrite shr_m_of_loc in Hd1. specialize (Hd1 HM ltac:(unfold prec in *; lia)).
  destruct (shr (shr_record_of_loc M l) E _) as [mrs e1]. cbn [fst snd] in *.
  destruct Hd1 as [Hm1 Hd1].
  pose proof (round_up_digits (shr_m mrs) (loc_of_shr_record mrs) Hm1) as [Hm2 Hd2].
  set (m2 := round_nearest_even (shr_m mrs) (loc_of_shr_record mrs)) in *.
  rewrite (fexp_normal (Zdigits2 m2 + e1)) by lia.
  pose proof (shr_snd (shr_record_of_loc m2 loc_Exact) e1 (Zdigits2 m2 + e1 - prec - e1))
    as He2.
  pose proof (shr_exact_digits (shr_record_of_loc m2 loc_Exact) e1
                (Zdigits2 m2 + e1 - prec - e1)) as Hd3.
  rewrite shr_m_of_loc in Hd3.
  specialize (Hd3 ltac:(lia) ltac:(unfold prec in *; lia)).
  destruct (shr (shr_record_of_loc m2 loc_Exact) e1 _) as [mrs' e2].
  cbn [fst snd] in *. destruct Hd3 as [Hm3 Hd3].
  destruct (shr_m mrs') as [|m'|m'] eqn:Em; [cbn in Hd3; unfold prec in *; lia| |lia].
  destruct (e2 <=? emax - prec); [right|by left].
  exists m', e2. split; [done|]. split; [lia|]. cbn [Zdigits2] in Hd3. lia.
Qed.

(** The quotient the division algorithm hands to the rounding has at least
    53 bits when both operands are normal. *)
Lemma SFdiv_core_large m1 e1 m2 e2 :
  Z.pos (digits2_pos m1) = prec -> Z.pos (digits2_pos m2) = prec ->
  emin <= e1 - e2 - prec ->
  exists q l,
    SFdiv_core_binary prec emax (Z.pos m1) e1 (Z.pos m2) e2 = (q, e1 - e2 - prec, l)
    /\ 0 <= q /\ prec <= Zdigits2 q.
Proof.
  intros H1 H2 He. unfold SFdiv_core_binary. cbv zeta.
  change IntDef.Z.min with Z.min. change IntDef.Z.sub with Z.sub.
  change IntDef.Z.add with Z.add. cbn [Zdigits2]. rewrite H1, H2.
  rewrite (fexp_normal (prec + e1 - (prec + e2))) by lia.
  replace (Z.min (prec + e1 - (prec + e2) - prec) (e1 - e2)) with (e1 - e2 - prec)
    by (unfold prec; lia).
  replace (e1 - e2 - (e1 - e2 - prec)) with 53 by (unfold prec; lia).
  pose proof (Z.div_eucl_eq (Z.shiftl (Z.pos m1) 53) (Z.pos m2) ltac:(lia)) as Hq.
  pose proof (Z.mod_pos_bound (Z.shiftl (Z.pos m1) 53) (Z.pos m2) ltac:(lia)) as Hr.
  unfold Z.modulo in Hr.
  destruct (Z.div_eucl (Z.shiftl (Z.pos m1) 53) (Z.pos m2)) as [q r].
  eexists q, _. split; [reflexivity|].
  rewrite Z.shiftl_mul_pow2 in Hq by lia.
  pose proof (Zdigits2_log2 m1) as L1. pose proof (Zdigits2_log2 m2) as L2.
  cbn [Zdigits2] in L1, L2. rewrite H1 in L1. rewrite H2 in L2.
  pose proof (Z.log2_spec (Z.pos m1) ltac:(lia)) as [S1 _].
  pose proof (Z.log2_spec (Z.pos m2) ltac:(lia)) as [_ S2].
  replace (Z.log2 (Z.pos m1)) with 52 in S1 by (unfold prec in *; lia).
  replace (Z.succ (Z.log2 (Z.pos m2))) with 53 in S2 by (unfold prec in *; lia).
  assert (2 ^ 52 <= q) as Hlow by (change (2 ^ 52) with 4503599627370496 in *;
    change (2 ^ 53) with 9007199254740992 in *; nia).
  split; [lia|].
  destruct q as [|q|q]; [lia| |lia]. rewrite Zdigits2_log2.
  pose proof (Z.log2_le_mono _ _ Hlow) as Hl.
  change (Z.log2 (2 ^ 52)) with 52 in Hl. unfold prec. lia.
Qed.

(** A pixel width of at least one, at the distance and focal length the
    detection page passes, gives a width that is not below 2.6. *)
Lemma session_width_large (w : float) :
  (1 <=? w)%float = true -> (w * 10000 / 35 <? 2.6)%float = false.
Proof.
  intros H. rewrite leb_spec in H.
  rewrite ltb_spec, div_spec, mul_spec.
  change (Prim2SF 1) with (S754_finite false 4503599627370496 (-52)) in H.
  change (Prim2SF 10000) with (S754_finite false 5497558138880000 (-39)).
  change (Prim2SF 35) with (S754_finite false 4925812092436480 (-47)).
  change (Prim2SF 2.6) with (S754_finite false 5854679515581645 (-51)).
  pose proof (Prim2SF_valid w) as Hv.
  destruct (Prim2SF w) as [[]|[]| |[] m e]; try done.
  apply SFleb_finite_exp in H.
  assert (Z.pos (digits2_pos m) = prec) as Hm
    by (apply (valid_normal false m e Hv); unfold SpecFloat.emin, emax, prec; lia).
  assert (emin = -1074 /\ prec = 53) as [Hemin Hprec] by done.
  (* the product *)
  unfold SF64mul, SFmul. cbn [xorb].
  assert (105 <= Zdigits2 (Z.pos (m * 5497558138880000))) as Hd.
  { rewrite Zdigits2_log2, Pos2Z.inj_mul.
    pose proof (Z.log2_mul_below (Z.pos m) 5497558138880000 ltac:(lia) ltac:(lia)) as Hl.
    pose proof (Zdigits2_log2 m) as L. cbn [Zdigits2] in L.
    change (Z.log2 5497558138880000) with 52 in Hl. lia. }
  destruct (bra_large false (Z.pos (m * 5497558138880000)) (e + -39) loc_Exact)
    as [->|(mx & ex & -> & Hex & Hmx)]; [lia|lia|lia|done|].
  (* the quotient *)
  unfold SF64div, SFdiv. cbn [xorb].
  destruct (SFdiv_core_large mx ex 4925812092436480 (-47) Hmx eq_refl)
    as (q & l & -> & Hq & Hdq); [lia|].
  destruct (bra_large false q (ex - -47 - prec) l)
    as [->|(mr & er & -> & Her & Hmr)]; [done|done|lia|done|].
  unfold SFltb, SFcompare.
  destruct (Z.compare_spec er (-51)); [lia|lia|done].
Qed.

End LargeValues.

(** ** Frames of the detection page *)

Section Frames.
Import Firestore VehicleDetection NumberPlateDetection DetectionPage.

Lemma session_camera_truck box :
  (1 <=? box_width box) = true →
  classifyVehicleType (calculateVehicleDimensions box cameraParams) = "Truck".
Proof.
  intros H. apply truck_when_not_below. left.
  unfold calculateVehicleDimensions, cameraParams. cbn [dim_width distance focalLength].
  by apply session_width_large.
Qed.

Lemma calculateFine_truck : calculateFine "Truck" = 2500.
Proof. reflexivity. Qed.

(** X17.  With the camera parameters [processFrame] passes, every crop that is at
    least one pixel wide is estimated wider than any threshold of the
    classifier: the vehicle is a Truck whatever its crop looks like, and the
    challan stored for it is a Truck's, with a fine of 2500. *)
Theorem session_camera_makes_trucks :
  (∀ box,
      (1 <=? box_width box) = true →
      classifyVehicleType (calculateVehicleDimensions box cameraParams) = "Truck")
  ∧ (∀ recognize image location now st result st',
      (1 <=? img_width image) = true →
      processVehicleFrame recognize image location cameraParams now st
      = (Some result, st') →
      res_vehicleType result = "Truck"
      ∧ res_fineAmount result = 2500
      ∧ ∃ d, challans st' !! res_id result = Some d
             ∧ vehicleType d = "Truck" ∧ amount d = 2500).
Proof.
  split; [apply session_camera_truck|].
  intros recognize image location now st result st' Hw H.
  unfold processVehicleFrame in H.
  destruct (detectNumberPlate recognize image) as [[|c plate]|]; try done.
  cbv zeta in H.
  rewrite (session_camera_truck (mkBoundingBox (img_width image) (img_height image)) Hw),
    calculateFine_truck in H.
  match type of H with context [addDoc ?data st] =>
    destruct (addDoc data st) as [[id|e] st1] eqn:Ha; [|done]
  end.
  injection H as <- <-. cbn. repeat split.
  apply addDoc_Ok in Ha as (_ & -> & _). eexists. by rewrite lookup_insert_eq.
Qed.

Lemma session_camera_makes_trucks_witness :
  classifyVehicleType
    (calculateVehicleDimensions (mkBoundingBox 1 1) cameraParams) = "Truck".
Proof. apply (proj1 session_camera_makes_trucks). reflexivity. Defined.

Lemma processVehicleFrame_Some recognize image location camera now st result st' :
  processVehicleFrame recognize image location camera now st = (Some result, st') →
  challans st !! res_id result = None
  ∧ online st = true ∧ online st' = true
  ∧ challans st'
    = <[res_id result :=
          detectedChallan (res_vehicleNumber result) (res_vehicleType result) location
            now (calculateFine (res_vehicleType result)) (res_dimensions result)]>
        (challans st)
  ∧ res_vehicleType result = classifyVehicleType (res_dimensions result)
  ∧ res_dimensions result
    = calculateVehicleDimensions
        {| box_width := img_width image; box_height := img_height image |} camera.
Proof.
  unfold processVehicleFrame.
  destruct (detectNumberPlate recognize image) as [[|c plate]|]; try done.
  cbv zeta.
  match goal with |- context [addDoc ?data st] =>
    destruct (addDoc data st) as [[id|e] st1] eqn:Ha; [|done]
  end.
  intros [= <- <-]. cbn. pose proof Ha as Ho.
  apply addDoc_Ok in Ha as (Hfree & Hc & Hon).
  unfold addDoc in Ho. destruct (online st); [|done]. by rewrite Hon.
Qed.

Lemma processVehicleFrame_offline recognize image location camera now st :
  online st = false →
  processVehicleFrame recognize image location camera now st = (None, st).
Proof.
  intros Ho. unfold processVehicleFrame.
  destruct (detectNumberPlate recognize image) as [[|c plate]|]; try done.
  cbv zeta. unfold addDoc. by rewrite Ho.
Qed.

Lemma processVehicleFrame_None recognize image location camera now st st' :
  processVehicleFrame recognize image location camera now st = (None, st') → st' = st.
Proof.
  unfold processVehicleFrame.
  destruct (detectNumberPlate recognize image) as [[|c plate]|]; try by intros [= <-].
  cbv zeta.
  match goal with |- context [addDoc ?data st] =>
    destruct (addDoc data st) as [[id|e] st1]
  end; [done|by intros [= <-]].
Qed.

Lemma processVehicles_added recognize pixels location serverTime clientTime vehicles :
  ∀ k violations st,
  let out := processVehicles recognize pixels location serverTime clientTime
               k vehicles violations st in
  ∃ added : list VehicleViolation,
    out.1 = added ++ violations
    ∧ (length added ≤ length vehicles)%nat
    ∧ NoDup (viol_id <$> added)
    ∧ online out.2 = online st
    ∧ (∀ v, v ∈ added →
         challans st !! viol_id v = None
         ∧ ∃ d, challans out.2 !! viol_id v = Some d
                ∧ vehicleNumber d = viol_vehicleNumber v
                ∧ vehicleType d = viol_vehicleType v
                ∧ dimensions d = Some (viol_dimensions v)
                ∧ Firestore.location d = location ∧ viol_location v = location
                ∧ status d = pending ∧ userId d = None
                ∧ amount d = calculateFine (viol_vehicleType v))
    ∧ (∀ id, id ∉ viol_id <$> added → challans out.2 !! id = challans st !! id)
    ∧ (online st = false → added = [])
    ∧ (Forall (λ r, (1 <=? width r) = true) vehicles →
       ∀ v, v ∈ added → viol_vehicleType v = "Truck").
Proof.
  induction vehicles as [|vehicle rest IH]; intros k violations st; cbv zeta.
  - exists []. cbn. split; [done|]. split; [done|]. split; [constructor|].
    split; [done|]. split; [intros v Hv; by apply elem_of_nil in Hv|].
    split; [done|]. split; [done|]. intros _ v Hv. by apply elem_of_nil in Hv.
  - cbn [processVehicles].
    destruct (processVehicleFrame recognize (cropOf pixels vehicle) location cameraParams
                (serverTime k) st) as [[result|] st1] eqn:Hf.
    + destruct (IH (S k) (newViolation location result (clientTime k) :: violations) st1)
        as (added & Hout & Hlen & Hnd & Hon & Hin & Hrest & Hoff & Htruck).
      destruct (processVehicleFrame_Some _ _ _ _ _ _ _ _ Hf)
        as (Hfree & Ho & Ho1 & Hst1 & Hty & Hdim).
      assert (res_id result ∉ viol_id <$> added) as Hnot.
      { intros Hx. apply list_elem_of_fmap in Hx as (v & Hv & Hx).
        destruct (Hin v Hx) as [Hnone _]. rewrite <- Hv, Hst1 in Hnone.
        by rewrite lookup_insert_eq in Hnone. }
      exists (added ++ [newViolation location result (clientTime k)]).
      split; [by rewrite Hout, <- app_assoc|].
      split; [rewrite length_app; cbn; lia|].
      split.
      { rewrite fmap_app. apply NoDup_app. split; [done|]. split.
        - intros id Hid Hid'. cbn in Hid'. apply list_elem_of_singleton in Hid' as ->.
          by apply Hnot.
        - cbn. apply NoDup_singleton. }
      split; [by rewrite Hon, Ho1, Ho|].
      split; [|split; [|split]].
      * intros v Hv. apply elem_of_app in Hv as [Hv|Hv].
        -- destruct (Hin v Hv) as [Hnone Hd]. split; [|done].
           rewrite Hst1 in Hnone. by apply lookup_insert_None in Hnone as [Hnone _].
        -- apply list_elem_of_singleton in Hv as ->. cbn [viol_id newViolation].
           split; [done|]. rewrite (Hrest _ Hnot), Hst1, lookup_insert_eq.
           eexists. split; [done|]. by cbn.
      * intros id Hid. rewrite fmap_app in Hid. apply not_elem_of_app in Hid as [Hid Hid'].
        rewrite (Hrest _ Hid), Hst1. apply lookup_insert_ne.
        intros <-. apply Hid'. cbn. apply list_elem_of_here.
      * intros Hx. by rewrite Hx in Ho.
      * intros Hall v Hv. apply Forall_cons in Hall as [Hw Hall].
        apply elem_of_app in Hv as [Hv|Hv]; [by apply Htruck|].
        apply list_elem_of_singleton in Hv as ->. cbn [viol_vehicleType newViolation].
        rewrite Hty, Hdim. by apply session_camera_truck.
    + apply processVehicleFrame_None in Hf as ->.
      destruct (IH (S k) violations st)
        as (added & Hout & Hlen & Hnd & Hon & Hin & Hrest & Hoff & Htruck).
      exists added. split; [done|]. split; [cbn; lia|].
      repeat (split; [done|]).
      intros Hall. apply Forall_cons in Hall as [_ Hall]. by apply Htruck.
Qed.

(** X18.  One frame adds at most one violation per contour to the front of the
    list, the newest first, and nothing else changes in the list.  Every
    violation it adds names a challan that was stored during the frame under
    an identifier that was free: a pending challan without a user, with the
    violation's vehicle number, type and dimensions, the page's location and
    the fine of the detection path's table.  No other challan changes.  While
    the store cannot be reached no violation is added, and when every contour
    is at least one pixel wide every violation added is a Truck's. *)
Theorem frame_adds_a_violation_per_challan
    recognize pixels location serverTime clientTime contours violations st :
  let out := processFrame recognize pixels location serverTime clientTime
               contours violations st in
  ∃ added : list VehicleViolation,
    out.1 = added ++ violations
    ∧ (length added ≤ length contours)%nat
    ∧ NoDup (viol_id <$> added)
    ∧ (∀ v, v ∈ added →
         challans st !! viol_id v = None
         ∧ ∃ d, challans out.2 !! viol_id v = Some d
                ∧ vehicleNumber d = viol_vehicleNumber v
                ∧ vehicleType d = viol_vehicleType v
                ∧ dimensions d = Some (viol_dimensions v)
                ∧ Firestore.location d = location ∧ viol_location v = location
                ∧ status d = pending ∧ userId d = None
                ∧ amount d = calculateFine (viol_vehicleType v))
    ∧ (∀ id, id ∉ viol_id <$> added → challans out.2 !! id = challans st !! id)
    ∧ (online st = false → added = [])
    ∧ (Forall (λ c, (1 <=? rect_width (boundingRect c)) = true) contours →
       ∀ v, v ∈ added → viol_vehicleType v = "Truck").
Proof.
  cbv zeta. unfold processFrame.
  destruct (processVehicles_added recognize pixels location serverTime clientTime
              (detectVehicles contours) 0 violations st)
    as (added & Hout & Hlen & Hnd & _ & Hin & Hrest & Hoff & Htruck).
  exists added. split; [done|]. split.
  { etrans; [exact Hlen|]. rewrite detectVehicles_filter, length_fmap.
    apply length_filter. }
  repeat (split; [done|]).
  intros Hall. apply Htruck. rewrite detectVehicles_filter.
  apply Forall_fmap, Forall_forall. intros c Hc.
  apply list_elem_of_filter in Hc as [_ Hc].
  by apply (proj1 (Forall_forall _ _) Hall c).
Qed.

Lemma frame_adds_a_violation_per_challan_witness :
  ∃ added : list VehicleViolation,
    (processFrame Samples.readsPlate (λ _, []) "One-Way Street" (λ _, 0%Z) (λ _, 1%Z)
       [mkContour 2000 (mkRect 5 7 100 80)] [] emptyStore).1
    = added ++ []
    ∧ ∀ v, v ∈ added → viol_vehicleType v = "Truck".
Proof.
  destruct (frame_adds_a_violation_per_challan Samples.readsPlate (λ _, [])
              "One-Way Street" (λ _, 0%Z) (λ _, 1%Z)
              [mkContour 2000 (mkRect 5 7 100 80)] [] emptyStore)
    as (added & Hout & _ & _ & _ & _ & _ & Htruck).
  exists added. split; [exact Hout|]. apply Htruck.
  repeat constructor.
Defined.

(** *** The list of violations over time *)

Lemma processVehicles_steps recognize pixels location serverTime clientTime vehicles :
  ∀ k violations st,
  let out := processVehicles recognize pixels location serverTime clientTime
               k vehicles violations st in
  rtc PageHistory.pageStep (PageHistory.mkPage violations st)
    (PageHistory.mkPage out.1 out.2).
Proof.
  induction vehicles as [|vehicle rest IH]; intros k violations st; cbv zeta;
    [apply rtc_refl|].
  cbn [processVehicles].
  destruct (processVehicleFrame recognize (cropOf pixels vehicle) location cameraParams
              (serverTime k) st) as [[result|] st1] eqn:Hf.
  - eapply rtc_l; [|apply IH].
    apply (PageHistory.page_region recognize (cropOf pixels vehicle) location
             (serverTime k) (clientTime k) (PageHistory.mkPage violations st) result st1 Hf).
  - apply processVehicleFrame_None in Hf as ->. apply IH.
Qed.

Lemma filter_other_ids (violation : VehicleViolation) violations :
  NoDup (viol_id <$> violations) →
  violation ∈ violations →
  length (handleGenerateChallan violation violations) = pred (length violations)
  ∧ ∀ v, v ∈ handleGenerateChallan violation violations
         ↔ v ∈ violations ∧ v ≠ violation.
Proof.
  unfold handleGenerateChallan.
  induction violations as [|a l IH]; intros Hnd Hin; [by apply elem_of_nil in Hin|].
  cbn in Hnd. apply NoDup_cons in Hnd as [Ha Hnd]. rewrite filter_cons.
  assert (∀ v, v ∈ l → viol_id v ≠ viol_id a) as Hother.
  { intros v Hv E. apply Ha. rewrite <- E. by apply list_elem_of_fmap_2. }
  apply elem_of_cons in Hin as [->|Hin].
  - rewrite decide_False by (intros H; by apply H).
    assert (filter (λ v, viol_id v ≠ viol_id a) l = l) as ->.
    { clear -Hother. induction l as [|b l IH]; [done|].
      rewrite filter_cons, decide_True by (apply Hother, list_elem_of_here).
      f_equal. apply IH. intros v Hv. apply Hother. by apply list_elem_of_further. }
    split; [done|]. intros v. rewrite elem_of_cons. split.
    + intros Hv. split; [by right|]. intros ->. by apply (Hother a Hv).
    + intros [[->|Hv] Hne]; done.
  - destruct (IH Hnd Hin) as [Hlen Hmem].
    rewrite decide_True by (intros E; by apply (Hother violation Hin)).
    split.
    + cbn [length]. rewrite Hlen. destruct l; [by apply elem_of_nil in Hin|done].
    + intros v. rewrite !elem_of_cons, Hmem. split.
      * intros [->|[Hv Hne]]; [|by split; [right|]].
        split; [by left|]. intros ->. by apply (Hother violation Hin).
      * intros [[->|Hv] Hne]; [by left|by right].
Qed.

Lemma pageStep_listed p p' :
  PageHistory.pageStep p p' → PageHistory.listed p → PageHistory.listed p'.
Proof.
  intros Hs [Hnd Hin]. destruct Hs as [recognize image location now clientNow p result st' Hf
                                      |violation p|strict p st' Hs].
  - destruct (processVehicleFrame_Some _ _ _ _ _ _ _ _ Hf)
      as (Hfree & _ & _ & Hst & _ & _).
    split; cbn [PageHistory.violations PageHistory.store].
    + cbn. apply NoDup_cons. split; [|done]. intros Hx.
      apply list_elem_of_fmap in Hx as (v & Hv & Hx).
      destruct (Hin v Hx) as (d & Hd & _). cbn in Hv. rewrite <- Hv in Hd.
      by rewrite Hfree in Hd.
    + intros v Hv. apply elem_of_cons in Hv as [->|Hv].
      * rewrite Hst. cbn. rewrite lookup_insert_eq. eexists. split; [done|]. by cbn.
      * destruct (Hin v Hv) as (d & Hd & Hrest). exists d. split; [|done].
        rewrite Hst, lookup_insert_ne; [done|]. intros E. rewrite <- E in Hd.
        by rewrite Hfree in Hd.
  - split; cbn [PageHistory.violations PageHistory.store].
    + apply (sublist_NoDup _ (viol_id <$> PageHistory.violations p)); [done|].
      apply fmap_sublist, sublist_filter.
    + intros v Hv. apply list_elem_of_filter in Hv as [_ Hv]. by apply Hin.
  - split; cbn [PageHistory.violations PageHistory.store]; [done|].
    intros v Hv. destruct (Hin v Hv) as (d & Hd & H1 & H2 & H3 & H4 & H5).
    destruct (step_kept _ _ _ Hs _ _ Hd)
      as (d' & Hd' & (S1 & S2 & _ & _ & S5 & _ & S7 & S8 & _)).
    exists d'. split; [done|]. by rewrite S1, S2, S5, S7, S8.
Qed.

(** X19.  While the page is open, whatever else is written to the collection, no
    two violations of the list name the same challan, and every violation
    names a stored challan without a user that has the violation's vehicle
    number, vehicle type, dimensions and location.  Generating a challan for
    a violation of the list therefore removes that violation and no other,
    and it stores nothing: the generated amount is shown nowhere and the
    stored challan keeps the fine of the detection path.  A whole frame is a
    sequence of such steps. *)
Theorem page_lists_each_challan_once :
  (∀ recognize pixels location serverTime clientTime contours violations st,
      let out := processFrame recognize pixels location serverTime clientTime
                   contours violations st in
      rtc PageHistory.pageStep (PageHistory.mkPage violations st)
        (PageHistory.mkPage out.1 out.2))
  ∧ (∀ st0 p,
      rtc PageHistory.pageStep (PageHistory.mkPage [] st0) p →
      PageHistory.listed p
      ∧ ∀ violation,
          violation ∈ PageHistory.violations p →
          length (handleGenerateChallan violation (PageHistory.violations p))
          = pred (length (PageHistory.violations p))
          ∧ ∀ v, v ∈ handleGenerateChallan violation (PageHistory.violations p)
                 ↔ v ∈ PageHistory.violations p ∧ v ≠ violation).
Proof.
  split.
  - intros. apply processVehicles_steps.
  - intros st0 p H.
    assert (PageHistory.listed p) as Hl.
    { assert (PageHistory.listed (PageHistory.mkPage [] st0)) as H0.
      { split; [constructor|]. intros v Hv. by apply elem_of_nil in Hv. }
      revert H0. generalize (PageHistory.mkPage [] st0) H. clear.
      intros p0 H. induction H as [p0|p0 p1 p2 Hs _ IH]; [done|].
      intros H0. apply IH. by eapply pageStep_listed. }
    split; [done|]. intros violation Hv. apply filter_other_ids; [apply Hl|done].
Qed.

Lemma page_lists_each_challan_once_witness :
  PageHistory.listed
    (PageHistory.mkPage
       [newViolation "One-Way Street"
          (mkFrameResult "0" (Js.codes "AB12CD3456") "Truck"
             (VehicleDetection.calculateVehicleDimensions
                (VehicleDetection.mkBoundingBox 200 100) cameraParams) 2500) 1%Z]
       MoreSamples.detected).
Proof.
  apply (proj2 page_lists_each_challan_once emptyStore).
  eapply rtc_l; [|apply rtc_refl].
  apply (PageHistory.page_region Samples.readsPlate Samples.crop "One-Way Street"
           0%Z 1%Z (PageHistory.mkPage [] emptyStore)
           (mkFrameResult "0" (Js.codes "AB12CD3456") "Truck"
              (VehicleDetection.calculateVehicleDimensions
                 (VehicleDetection.mkBoundingBox 200 100) cameraParams) 2500)
           MoreSamples.detected).
  reflexivity.
Defined.

End Frames.

(** ** The counters over time *)

Section CountersOverTime.
Import Firestore AdminDashboard Evolution.

Lemma paid_docs_grow (m : gmap string Doc) : ∀ m' : gmap string Doc,
  (∀ id d, m !! id = Some d →
           ∃ d', m' !! id = Some d' ∧ (isPaid d = true → isPaid d' = true)) →
  (length (map_to_list m).*2 ≤ length (map_to_list m').*2)%nat
  ∧ (paidCount (map_to_list m).*2 ≤ paidCount (map_to_list m').*2)%nat.
Proof.
  induction m as [|i x m Hi IH] using map_ind; intros m' H.
  - rewrite map_to_list_empty. unfold paidCount. cbn. lia.
  - destruct (H i x) as (x' & Hx' & Hp); [apply lookup_insert_eq|].
    destruct (IH (delete i m')) as [Hlen Hpaid].
    { intros id d Hd. assert (id ≠ i) as Hne by (intros ->; by rewrite Hi in Hd).
      destruct (H id d) as (d' & Hd' & Hp'); [by rewrite lookup_insert_ne|].
      exists d'. by rewrite lookup_delete_ne. }
    assert ((map_to_list (<[i:=x]> m)).*2 ≡ₚ x :: (map_to_list m).*2) as E0
      by (by rewrite map_to_list_insert).
    rewrite (Permutation_length E0), (paidCount_perm _ _ E0).
    assert ((map_to_list m').*2 ≡ₚ x' :: (map_to_list (delete i m')).*2) as E.
    { rewrite <- (insert_delete_id m' i x' Hx') at 1.
      rewrite map_to_list_insert; [done|apply lookup_delete_eq]. }
    rewrite (Permutation_length E), (paidCount_perm _ _ E), !paidCount_cons.
    cbn [length]. split; [lia|].
    destruct (isPaid x); [rewrite Hp by done|destruct (isPaid x')]; lia.
Qed.

(** X20.  Whatever the sources do to the collection, the total number of challans
    and the number of paid challans the dashboard shows never go down: no
    operation deletes a challan or makes a paid challan pending again. *)
Theorem total_and_paid_never_go_down initial strict st st' :
  evolves strict st st' →
  let before := computeStatistics initial (snapshot st) in
  let after := computeStatistics initial (snapshot st') in
  (totalChallans before ≤ totalChallans after)%Z
  ∧ (paidChallans before ≤ paidChallans after)%Z.
Proof.
  intros H. cbv zeta. unfold computeStatistics.
  destruct (fold_tally (snapshot st) initial) as (Ht & Hp & _).
  destruct (fold_tally (snapshot st') initial) as (Ht' & Hp' & _).
  rewrite Ht, Hp, Ht', Hp'.
  destruct (paid_docs_grow (challans st) (challans st')) as [Hlen Hpaid]; [|unfold snapshot; lia].
  intros id d Hd. destruct (evolves_kept _ _ _ H id d Hd) as (d' & Hd' & S).
  exists d'. split; [done|].
  destruct S as (_ & _ & _ & _ & _ & _ & _ & _ & Hs & _).
  unfold isPaid. destruct (status d); [done|]. intros _. by rewrite Hs.
Qed.

Lemma total_and_paid_never_go_down_witness :
  (paidChallans (computeStatistics Samples.zeroStatistics (snapshot Samples.twoCreated))
   ≤ paidChallans (computeStatistics Samples.zeroStatistics (snapshot Samples.paidTwice)))%Z.
Proof.
  refine (proj2 (total_and_paid_never_go_down Samples.zeroStatistics false
                   Samples.twoCreated Samples.paidTwice _)).
  eapply rtc_l; [apply (step_pay false "0" 20%Z)|].
  eapply rtc_l; [apply (step_pay false "0" 30%Z)|].
  apply rtc_refl.
Defined.

End CountersOverTime.

(** ** The vehicle number of a detected challan *)

Section DetectedPlate.
Import Firestore NumberPlateDetection.

(** X21.  The vehicle number of a challan the detection path stores is the text
    the pattern matched in what was read off the image, as it stood there:
    it has the plate format, white space between its groups included, so it
    is at least ten characters long, and it is what the caller gets back.  A
    challan is stored only while the store can be reached. *)
Theorem detected_number_is_the_matched_text
    recognize image location camera now st result st' :
  processVehicleFrame recognize image location camera now st = (Some result, st') →
  online st = true
  ∧ plateShape (res_vehicleNumber result)
  ∧ (10 ≤ length (res_vehicleNumber result))%nat
  ∧ (∃ text i, recognize image = Some text
               ∧ occursAt (res_vehicleNumber result) text i)
  ∧ ∃ d, challans st' !! res_id result = Some d
         ∧ vehicleNumber d = res_vehicleNumber result.
Proof.
  intros H.
  destruct (processVehicleFrame_Some _ _ _ _ _ _ _ _ H) as (_ & Ho & _ & Hst & _).
  assert (detectNumberPlate recognize image = Some (res_vehicleNumber result)) as Hp.
  { unfold processVehicleFrame in H.
    destruct (detectNumberPlate recognize image) as [[|c plate]|]; try done.
    cbv zeta in H.
    match type of H with context [addDoc ?data st] =>
      destruct (addDoc data st) as [[id|e] st1]; [|done]
    end.
    by injection H as <- <-. }
  pose proof (detectNumberPlate_plate _ _ _ Hp) as Hshape.
  split; [done|]. split; [done|]. split; [by apply plateShape_length|]. split.
  - destruct (recognize image) as [text|] eqn:E;
      [|unfold detectNumberPlate in Hp; by rewrite E in Hp].
    rewrite (detectNumberPlate_search _ _ _ E) in Hp.
    apply search_leftmost in Hp as (_ & i & Hi & _). by exists text, i.
  - rewrite Hst, lookup_insert_eq. by eexists.
Qed.

Lemma detected_number_is_the_matched_text_witness :
  plateShape (Js.codes "AB12CD3456").
Proof.
  refine (proj1 (proj2 (detected_number_is_the_matched_text Samples.readsPlate
            Samples.crop "One-Way Street" Samples.sessionCamera 0%Z emptyStore
            (mkFrameResult "0" (Js.codes "AB12CD3456") "Truck"
               (VehicleDetection.calculateVehicleDimensions
                  (VehicleDetection.mkBoundingBox 200 100) Samples.sessionCamera) 2500)
            MoreSamples.detected _))).
  reflexivity.
Defined.

End DetectedPlate.

(** ** The capture controls *)

Section Capture.
Import CaptureController.








End Capture.
